(** * paper_ai_bot: the content pipeline of [main.py]

    A shallow embedding of [main.py] (arXiv feed -> PDF -> text -> summary ->
    outline -> slides -> narration -> video) and the properties of its stages.

    Python [str] values are sequences of Unicode code points and are modelled
    as [list N]; the remote services, the file system and the clock are an
    environment record whose answers the program cannot influence, and every
    call that leaves the process is recorded in a trace of events. *)

From Stdlib Require Import NArith ZArith QArith Ascii String List Lia.
From Stdlib Require Import DecimalString.
From stdpp Require Import gmap list.

Set Default Proof Using "Type".
Local Open Scope N_scope.

(* ===================================================================== *)
(** * Python strings *)
(* ===================================================================== *)

(** A [str] is a list of code points. *)
Abbreviation char := N (only parsing).
Abbreviation str := (list N) (only parsing).

Module Utf8.

(** The source file is UTF-8; a literal of this development is the byte
    string Rocq reads, decoded here to the code points Python sees. *)
Fixpoint decode (bs : list N) : str :=
  match bs with
  | [] => []
  | b0 :: t =>
      if b0 <? 128 then b0 :: decode t
      else if b0 <? 224 then
        match t with
        | b1 :: t1 => ((b0 - 192) * 64 + (b1 - 128)) :: decode t1
        | _ => []
        end
      else if b0 <? 240 then
        match t with
        | b1 :: b2 :: t2 =>
            ((b0 - 224) * 4096 + (b1 - 128) * 64 + (b2 - 128)) :: decode t2
        | _ => []
        end
      else
        match t with
        | b1 :: b2 :: b3 :: t3 =>
            ((b0 - 240) * 262144 + (b1 - 128) * 4096 + (b2 - 128) * 64
             + (b3 - 128)) :: decode t3
        | _ => []
        end
  end.

Definition bytes_of (s : string) : list N :=
  map N_of_ascii (list_ascii_of_string s).

(** The UTF-8 bytes of one code point. *)
Definition encode1 (c : char) : list N :=
  if c <? 128 then [c]
  else if c <? 2048 then [192 + c / 64; 128 + c mod 64]
  else if c <? 65536 then
    [224 + c / 4096; 128 + (c / 64) mod 64; 128 + c mod 64]
  else
    [240 + c / 262144; 128 + (c / 4096) mod 64; 128 + (c / 64) mod 64;
     128 + c mod 64].

End Utf8.

(** [py "..."] is the Python string written between the quotes. *)
Definition py (s : string) : str := Utf8.decode (Utf8.bytes_of s).

Module Chr.
Definition LF : char := 10.
Definition CR : char := 13.
Definition quote : char := 34.
Definition star : char := 42.
Definition slash : char := 47.
Definition colon : char := 58.
Definition lt : char := 60.
Definition gt : char := 62.
Definition question : char := 63.
Definition backslash : char := 92.
Definition underscore : char := 95.
Definition bar : char := 124.
End Chr.

Module Str.

(** [c in chars] for a one-character [c]. *)
Definition mem (c : char) (chars : str) : bool := existsb (N.eqb c) chars.

(** [str.isspace] on one character: the code points CPython's
    [_PyUnicode_IsWhitespace] accepts. *)
Definition isspace (c : char) : bool :=
  ((9 <=? c) && (c <=? 13)) || ((28 <=? c) && (c <=? 32))
  || (c =? 133) || (c =? 160) || (c =? 5760)
  || ((8192 <=? c) && (c <=? 8202))
  || (c =? 8232) || (c =? 8233) || (c =? 8239) || (c =? 8287)
  || (c =? 12288).

Fixpoint lstrip_by (p : char -> bool) (s : str) : str :=
  match s with
  | [] => []
  | c :: t => if p c then lstrip_by p t else s
  end.

(** Drop the longest suffix all of whose characters satisfy [p]. *)
Fixpoint rstrip_by (p : char -> bool) (s : str) : str :=
  match s with
  | [] => []
  | c :: t =>
      match rstrip_by p t with
      | [] => if p c then [] else [c]
      | r => c :: r
      end
  end.

Definition strip_by (p : char -> bool) (s : str) : str :=
  rstrip_by p (lstrip_by p s).

(** [s.strip()] *)
Definition strip (s : str) : str := strip_by isspace s.

(** [s.strip(chars)] *)
Definition strip_chars (chars : str) (s : str) : str :=
  strip_by (fun c => mem c chars) s.

Fixpoint starts_with (p s : str) : bool :=
  match p, s with
  | [], _ => true
  | a :: p', b :: s' => (a =? b) && starts_with p' s'
  | _ :: _, [] => false
  end.

(** [s.replace(old, new)] for a non-empty [old]: scan from the left, and at
    each occurrence of [old] emit [new] and skip the occurrence ([skip]
    counts the characters of it still to pass over). *)
Fixpoint replace_from (old new : str) (skip : nat) (s : str) : str :=
  match s with
  | [] => []
  | c :: t =>
      match skip with
      | S k => replace_from old new k t
      | O =>
          if starts_with old s
          then new ++ replace_from old new (Nat.pred (length old)) t
          else c :: replace_from old new O t
      end
  end.

Definition replace (old new s : str) : str := replace_from old new O s.

Fixpoint eqb (a b : str) : bool :=
  match a, b with
  | [], [] => true
  | x :: a', y :: b' => (x =? y) && eqb a' b'
  | _, _ => false
  end.

(** [str(n)] for an integer. *)
Definition of_Z (z : Z) : str :=
  map N_of_ascii (list_ascii_of_string (NilZero.string_of_int (Z.to_int z))).

(** [sep in s] for a one-character [sep]. *)
Definition contains (sep : char) (s : str) : bool := existsb (N.eqb sep) s.

(** [s.split(sep)] for a one-character [sep]: never empty. *)
Fixpoint split (sep : char) (s : str) : list str :=
  match s with
  | [] => [[]]
  | c :: t =>
      if c =? sep then [] :: split sep t
      else match split sep t with
           | [] => [[c]]
           | w :: ws => (c :: w) :: ws
           end
  end.

(** [s.split(sep, 1)] on a string that contains [sep]: the part before the
    first [sep] and the part after it. *)
Fixpoint split1 (sep : char) (s : str) : str * str :=
  match s with
  | [] => ([], [])
  | c :: t =>
      if c =? sep then ([], t)
      else let '(k, v) := split1 sep t in (c :: k, v)
  end.

End Str.

(** ** Regular-expression substitutions used by the program *)

Module Re.

(** [re.sub("[...]", repl, s)]: every character of the class is replaced. *)
Definition sub_class (cls : char -> bool) (repl : str) (s : str) : str :=
  flat_map (fun c => if cls c then repl else [c]) s.

(** [re.sub("c+", repl, s)]: every maximal run of characters satisfying [cls]
    is replaced by one [repl]. [in_run] tells that the previous character
    belonged to the run being replaced. *)
Fixpoint sub_runs_from (cls : char -> bool) (repl : str)
                       (in_run : bool) (s : str) : str :=
  match s with
  | [] => []
  | c :: t =>
      if cls c then
        if in_run then sub_runs_from cls repl true t
        else repl ++ sub_runs_from cls repl true t
      else c :: sub_runs_from cls repl false t
  end.

Definition sub_runs (cls : char -> bool) (repl s : str) : str :=
  sub_runs_from cls repl false s.

End Re.

(* ===================================================================== *)
(** * File names *)
(* ===================================================================== *)

(** The character class of the first substitution: less-than, greater-than,
    colon, double quote, slash, backslash, bar, question mark, star, CR, LF. *)
Definition unsafe_chars : str :=
  [Chr.lt; Chr.gt; Chr.colon; Chr.quote; Chr.slash; Chr.backslash; Chr.bar;
   Chr.question; Chr.star; Chr.CR; Chr.LF].

Definition is_unsafe (c : char) : bool := Str.mem c unsafe_chars.

Definition is_underscore (c : char) : bool := c =? Chr.underscore.

Definition safe_filename (name : str) : str :=
  let name := Re.sub_class is_unsafe [Chr.underscore] name in
  Str.strip_chars [Chr.underscore]
    (Re.sub_runs is_underscore [Chr.underscore] name).

(** The value of [name] after both substitutions, before [strip]. *)
Definition collapsed (name : str) : str :=
  Re.sub_runs is_underscore [Chr.underscore]
    (Re.sub_class is_unsafe [Chr.underscore] name).

(** No character of the class is left. *)
Definition clean (s : str) : Prop := Forall (fun c => is_unsafe c = false) s.

(** Two neighbouring underscores somewhere in [s]. *)
Fixpoint has_run (s : str) : bool :=
  match s with
  | [] => false
  | a :: t =>
      (is_underscore a && match t with b :: _ => is_underscore b | [] => false end)
      || has_run t
  end.


(* ===================================================================== *)
(** * The world outside the process *)
(* ===================================================================== *)

Abbreviation bytes := (list Byte.byte) (only parsing).

(** Exceptions, all of them subclasses of [Exception]; the argument is the
    text [str(e)] gives. *)
Inductive Exn :=
| ConnectionError (msg : str)   (* requests: the transport failed *)
| Timeout (msg : str)           (* requests: no answer within the timeout *)
| HTTPError (msg : str)         (* requests: [raise_for_status] *)
| RuntimeError (msg : str)
| LibraryError (msg : str).     (* raised inside fitz, genai, PIL, moviepy, open *)

Definition exn_str (e : Exn) : str :=
  match e with
  | ConnectionError m | Timeout m | HTTPError m | RuntimeError m
  | LibraryError m => m
  end.

(** [requests.Response] *)
Record Response := {
  status_code : Z;
  reason : str;
  url : str;
  content : bytes
}.

#[warnings="-register-all"]
Inductive Json :=
| JNull
| JBool (b : bool)
| JNum (q : Q)
| JStr (s : str)
| JArr (items : list Json)
| JObj (fields : list (str * Json)).

(** One style of a VOICEVOX speaker, and one speaker of the catalog. *)
Record Style := { style_name : str; style_id : Z }.
Record Speaker := { speaker_name : str; speaker_styles : list Style }.

(** A feed entry: [entry.title], [entry.id]. *)
Record Entry := { entry_title : str; entry_id : str }.

(** moviepy clips, as far as the program looks at them: [duration] is in
    seconds and is [None] until it is set. *)
Record AudioClip := { audio_file : str; audio_duration : Q }.

Record VideoClip := {
  clip_images : list str;
  clip_duration : option Z;
  clip_audio : option AudioClip
}.

(** Calls that leave the process, in the order they are made. *)
Inductive Event :=
| EPrint (msg : str)
| EFeedParse (feed_url : str)
| EGet (get_url : str) (timeout : Z)
| EFileWrite (path : str) (data : bytes)
| EFitzOpen (path : str)
| EGenerate (prompt : str)
| EGetSpeakers
| EAudioQuery (text : str) (speaker : Z)
| ESynthesis (speaker : Z) (query : gmap (list N) Json)
| EImageSave (path : str) (width height : Z) (text : str)
| EImageClip (path : str)
| EAudioFileClip (path : str)
| EWriteVideofile (path : str) (fps : Z) (clip : VideoClip).

(** What the outside answers. An answer [inl e] is the call raising [e]. *)
Record Env := {
  feed_entries : str -> list Entry;
  requests_get : str -> Z -> Exn + Response;
  open_wb : str -> bytes -> option Exn;
  fitz_open : str -> Exn + list (Exn + str);
  generate_content : str -> Exn + str;
  get_speakers : Exn + list Speaker;
  post_audio_query : str -> Z -> Exn + gmap (list N) Json;
  post_synthesis : Z -> gmap (list N) Json -> Exn + bytes;
  image_save : str -> option Exn;
  image_clip : str -> option Exn;
  audio_file_clip : str -> Exn + Q;
  write_videofile : str -> option Exn;
  utcnow_Ymd : str
}.

(** ** Computations: a trace of events and a result or an exception *)

Inductive Result (A : Type) :=
| Ok (a : A)
| Raise (e : Exn).
Arguments Ok {A} a.
Arguments Raise {A} e.

Definition M (A : Type) : Type := list Event * Result A.

Definition ret {A} (a : A) : M A := ([], Ok a).

Definition bind {A B} (m : M A) (f : A -> M B) : M B :=
  match m with
  | (t, Ok a) => let '(t', r) := f a in (t ++ t', r)
  | (t, Raise e) => (t, Raise e)
  end.

Definition raise {A} (e : Exn) : M A := ([], Raise e).

(** [try: m except Exception as e: handler e] *)
Definition try_except {A} (m : M A) (handler : Exn -> M A) : M A :=
  match m with
  | (t, Ok a) => (t, Ok a)
  | (t, Raise e) => let '(t', r) := handler e in (t ++ t', r)
  end.

(** A call to the outside: the event, then its answer. *)
Definition call {A} (ev : Event) (answer : Exn + A) : M A :=
  ([ev], match answer with inl e => Raise e | inr a => Ok a end).

Definition call_ (ev : Event) (answer : option Exn) : M unit :=
  ([ev], match answer with Some e => Raise e | None => Ok tt end).

Definition of_answer {A} (answer : Exn + A) : M A :=
  ([], match answer with inl e => Raise e | inr a => Ok a end).

Notation "'do' x <- m ; k" := (bind m (fun x => k))
  (at level 10, x name, m at level 100, k at level 200).
Notation "'exec' m ; k" := (bind m (fun _ => k))
  (at level 10, m at level 100, k at level 200).

Fixpoint mapM {A B} (f : A -> M B) (l : list A) : M (list B) :=
  match l with
  | [] => ret []
  | a :: l' => do b <- f a; do bs <- mapM f l'; ret (b :: bs)
  end.

Definition trace {A} (m : M A) : list Event := fst m.
Definition result {A} (m : M A) : Result A := snd m.

Definition print (msg : str) : M unit := call_ (EPrint msg) None.

(* ===================================================================== *)
(** * Library functions the program calls *)
(* ===================================================================== *)

Module Path.
(** [os.path.join(a, b)] of [posixpath]. *)
Definition join (a b : str) : str :=
  if Str.starts_with [Chr.slash] b then b
  else match last a with
       | None => b
       | Some c => if c =? Chr.slash then a ++ b else a ++ [Chr.slash] ++ b
       end.
End Path.

Module Url.
(** Characters [quote] never escapes: letters, digits and [_.-~]. *)
Definition unreserved (c : char) : bool :=
  ((65 <=? c) && (c <=? 90)) || ((97 <=? c) && (c <=? 122))
  || ((48 <=? c) && (c <=? 57))
  || (c =? 95) || (c =? 46) || (c =? 45) || (c =? 126).

Definition hex_digit (d : N) : char :=
  if d <? 10 then 48 + d else 55 + d.

Definition percent (b : N) : str := [37; hex_digit (b / 16); hex_digit (b mod 16)].

(** [urllib.parse.quote_plus(s)]: a space becomes a plus sign, an unreserved
    character stays, every other character becomes the percent-escapes of
    its UTF-8 bytes. *)
Definition quote_plus (s : str) : str :=
  flat_map (fun c =>
    if c =? 32 then [43]
    else if unreserved c then [c]
    else flat_map percent (Utf8.encode1 c)) s.
End Url.

Module Requests.
(** [Response.raise_for_status]: raises for the statuses 400 to 599. *)
Definition raise_for_status (res : Response) : M unit :=
  let st := status_code res in
  if ((400 <=? st) && (st <? 500))%Z then
    raise (HTTPError (Str.of_Z st ++ py " Client Error: " ++ reason res
                      ++ py " for url: " ++ url res))
  else if ((500 <=? st) && (st <? 600))%Z then
    raise (HTTPError (Str.of_Z st ++ py " Server Error: " ++ reason res
                      ++ py " for url: " ++ url res))
  else ret tt.
End Requests.

Module Moviepy.
Definition set_duration (d : Z) (c : VideoClip) : VideoClip :=
  {| clip_images := clip_images c; clip_duration := Some d;
     clip_audio := clip_audio c |}.

Definition set_audio (a : AudioClip) (c : VideoClip) : VideoClip :=
  {| clip_images := clip_images c; clip_duration := clip_duration c;
     clip_audio := Some a |}.

(** The running total of the clips' durations; [None] if one has none. *)
Fixpoint total_duration (clips : list VideoClip) : option Z :=
  match clips with
  | [] => Some 0%Z
  | c :: cs =>
      match clip_duration c, total_duration cs with
      | Some d, Some ds => Some (d + ds)%Z
      | _, _ => None
      end
  end.

(** [concatenate_videoclips(clips)], method chain: the clips one after the
    other, the duration their sum. Raises on no clips ([max] of an empty
    sequence) and on a clip without duration. *)
Definition concatenate_videoclips (clips : list VideoClip) : M VideoClip :=
  match clips, total_duration clips with
  | _ :: _, Some d =>
      ret {| clip_images := flat_map clip_images clips;
             clip_duration := Some d; clip_audio := None |}
  | _, _ => raise (LibraryError (py "concatenate_videoclips"))
  end.
End Moviepy.

(* ===================================================================== *)
(** * The program *)
(* ===================================================================== *)

Definition SAVE_DIR : str := py "outputs".

Section Program.
Variable env : Env.

(** *** 1. the newest papers *)

Definition arxiv_url : str :=
  let raw_query :=
    py "cat:cs.AI OR cat:cs.LG OR cat:cs.CL OR cat:cs.CV OR cat:stat.ML" in
  let encoded := Url.quote_plus raw_query in
  py "http://export.arxiv.org/api/query?"
  ++ py "search_query=" ++ encoded
  ++ py "&start=0&max_results=3&sortBy=submittedDate&sortOrder=descending".

Definition fetch_arxiv_papers : M (list Entry) :=
  let url := arxiv_url in
  call (EFeedParse url) (inr (feed_entries env url)).

(** *** 2. download *)

Definition write_file (path : str) (data : bytes) : M unit :=
  call_ (EFileWrite path data) (open_wb env path data).

Definition download_pdf (pdf_url filename : str) : M (option str) :=
  do got <-
    try_except
      (do res <- call (EGet pdf_url 20) (requests_get env pdf_url 20);
       exec Requests.raise_for_status res;
       ret (Some res))
      (fun e =>
         exec print (py "PDF download failed: " ++ exn_str e);
         ret None);
  match got with
  | None => ret None
  | Some res =>
      let path := Path.join SAVE_DIR filename in
      exec write_file path (content res);
      ret (Some path)
  end.

(** *** 3. text of the PDF *)

Definition extract_text (pdf_path : option str) : M str :=
  match pdf_path with
  | None | Some [] => ret []
  | Some path =>
      try_except
        (do doc <- call (EFitzOpen path) (fitz_open env path);
         do texts <- mapM of_answer doc;
         ret (concat texts))
        (fun _ => ret [])
  end.

(** *** 4. summary *)

Definition MAX_CHARS : nat := 5000.

Definition summary_prompt (text : str) : str :=
  [Chr.LF]
  ++ py "以下の英語論文の内容を、日本語で簡潔に3点に要約してください。"
  ++ [Chr.LF; Chr.LF] ++ text ++ [Chr.LF].

Definition summarize_text_ja (text : str) : M str :=
  let text := if (MAX_CHARS <? length text)%nat then take MAX_CHARS text
              else text in
  let prompt := summary_prompt text in
  do response <- call (EGenerate prompt) (generate_content env prompt);
  ret (Str.strip response).

(** *** 5. narration *)

Fixpoint find_style (style : str) (styles : list Style) : option Z :=
  match styles with
  | [] => None
  | st :: rest =>
      if Str.eqb (style_name st) style then Some (style_id st)
      else find_style style rest
  end.

Fixpoint find_speaker (name style : str) (data : list Speaker) : option Z :=
  match data with
  | [] => None
  | sp :: rest =>
      if Str.eqb (speaker_name sp) name then
        match find_style style (speaker_styles sp) with
        | Some id => Some id
        | None => find_speaker name style rest
        end
      else find_speaker name style rest
  end.

Definition get_speaker_id (name style : str) : M (option Z) :=
  do data <- call EGetSpeakers (get_speakers env);
  ret (find_speaker name style data).

Definition default_name : str := py "四国めたん".
Definition default_style : str := py "ノーマル".
Definition default_speed : Q := 11 # 10.

Definition voicevox_tts (text filename : str) (speed : Q) : M str :=
  do speaker <- get_speaker_id default_name default_style;
  match speaker with
  | None => raise (RuntimeError (py "四国めたんが見つかりません"))
  | Some speaker =>
      let cleaned := Str.replace [Chr.star; Chr.star] [] text in
      do query <- call (EAudioQuery cleaned speaker)
                       (post_audio_query env cleaned speaker);
      let query := <[py "speedScale" := JNum speed]> query in
      do audio <- call (ESynthesis speaker query)
                       (post_synthesis env speaker query);
      let path := Path.join SAVE_DIR filename in
      exec write_file path audio;
      ret path
  end.

(** *** 6. outline *)

Definition outline_prompt (title summary : str) : str :=
  [Chr.LF]
  ++ py "次の論文について、動画用5スライドに整理してください：" ++ [Chr.LF; Chr.LF]
  ++ py "1. TITLE" ++ [Chr.LF]
  ++ py "2. PURPOSE" ++ [Chr.LF]
  ++ py "3. METHOD" ++ [Chr.LF]
  ++ py "4. RESULT" ++ [Chr.LF]
  ++ py "5. CONCLUSION" ++ [Chr.LF; Chr.LF]
  ++ py "タイトル:" ++ [Chr.LF]
  ++ title ++ [Chr.LF; Chr.LF]
  ++ py "要約:" ++ [Chr.LF]
  ++ summary ++ [Chr.LF].

(** The body of the loop over the lines of the response. *)
Definition parse_line (slides : gmap (list N) (list N)) (line : str)
  : gmap (list N) (list N) :=
  if Str.contains Chr.colon line then
    let '(key, val) := Str.split1 Chr.colon line in
    <[Str.strip key := Str.strip val]> slides
  else slides.

Definition parse_outline (res : str) : gmap (list N) (list N) :=
  foldl parse_line ∅ (Str.split Chr.LF res).

Definition build_slide_structure (title summary : str)
  : M (gmap (list N) (list N)) :=
  let prompt := outline_prompt title summary in
  do res <- call (EGenerate prompt) (generate_content env prompt);
  ret (parse_outline res).

(** *** 7. slide images *)

Definition create_slide_image (text filename : str) : M str :=
  exec call_ (EImageSave filename 1920 1080 text) (image_save env filename);
  ret filename.

(** *** 8. video *)

Definition ImageClip (path : str) : M VideoClip :=
  exec call_ (EImageClip path) (image_clip env path);
  ret {| clip_images := [path]; clip_duration := None; clip_audio := None |}.

Definition AudioFileClip (path : str) : M AudioClip :=
  do d <- call (EAudioFileClip path) (audio_file_clip env path);
  ret {| audio_file := path; audio_duration := d |}.

Definition generate_video (slide_paths : list str) (audio_path output_path : str)
  : M str :=
  do clips <- mapM (fun p => do c <- ImageClip p;
                             ret (Moviepy.set_duration 4 c)) slide_paths;
  do video <- Moviepy.concatenate_videoclips clips;
  do audio <- AudioFileClip audio_path;
  let final := Moviepy.set_audio audio video in
  exec call_ (EWriteVideofile output_path 24 final)
             (write_videofile env output_path);
  ret output_path.

(** *** main *)

(** Which [return] of [main] a run left through: the early one after
    [No papers found.], or the end of the function. *)
Inductive Exit := NoWork | Done.

Definition slide_keys : list str :=
  [py "TITLE"; py "PURPOSE"; py "METHOD"; py "RESULT"; py "CONCLUSION"].

Definition pdf_url_of (entry : Entry) : str :=
  Str.replace (py "abs") (py "pdf") (entry_id entry) ++ py ".pdf".

Definition slide_path (key : str) : str :=
  Path.join SAVE_DIR (key ++ py ".png").

(** [main] from the summary on (line 208 to the end), given the title and
    the extracted text. *)
Definition main_from_text (raw_title text : str) : M Exit :=
  do summary <- summarize_text_ja text;
  do structure <- build_slide_structure raw_title summary;
  do slide_files <-
    mapM (fun key =>
            let msg := key ++ [Chr.LF; Chr.LF]
                       ++ default [] (structure !! key) in
            let path := slide_path key in
            exec create_slide_image msg path;
            ret path) slide_keys;
  let today := utcnow_Ymd env in
  do audio_path <-
    voicevox_tts summary (py "narration_" ++ today ++ py ".wav")
                 default_speed;
  let video_path :=
    Path.join SAVE_DIR (py "paper_video_" ++ today ++ py ".mp4") in
  exec generate_video slide_files audio_path video_path;
  exec print ([Chr.LF] ++ py "🎉 完成！ → " ++ video_path);
  ret Done.

Definition main : M Exit :=
  exec print (py "📥 Fetching AI papers...");
  do papers <- fetch_arxiv_papers;
  match papers with
  | [] =>
      exec print (py "No papers found.");
      ret NoWork
  | entry :: _ =>
      let raw_title := entry_title entry in
      exec print ([Chr.LF] ++ py "▶ Processing: " ++ raw_title);
      let filename := safe_filename raw_title in
      let pdf_url := pdf_url_of entry in
      do pdf_path <- download_pdf pdf_url (filename ++ py ".pdf");
      do text <- extract_text pdf_path;
      main_from_text raw_title text
  end.

End Program.

(* ===================================================================== *)
(** * Vocabulary of the statements *)
(* ===================================================================== *)

(** [sep.join(parts)] *)
Fixpoint join (sep : char) (parts : list str) : str :=
  match parts with
  | [] => []
  | [w] => w
  | w :: ws => w ++ sep :: join sep ws
  end.

(** The key a line of the response binds, if it binds one. *)
Definition line_key (line : str) : option str :=
  if Str.contains Chr.colon line
  then Some (Str.strip (fst (Str.split1 Chr.colon line)))
  else None.

(** The catalog has a speaker [name] with a style [style]. *)
Definition voice_match (name style : str) (catalog : list Speaker) : Prop :=
  exists sp st, sp ∈ catalog /\ st ∈ speaker_styles sp
                /\ speaker_name sp = name /\ style_name st = style.

(** The clip of one slide: its image for 4 seconds. *)
Definition still (path : str) : VideoClip :=
  Moviepy.set_duration 4
    {| clip_images := [path]; clip_duration := None; clip_audio := None |}.

(** The paths a trace writes files to. *)
Definition written_path (ev : Event) : list str :=
  match ev with
  | EFileWrite path _ | EImageSave path _ _ _ | EWriteVideofile path _ _ => [path]
  | _ => []
  end.

Definition written_paths (t : list Event) : list str := flat_map written_path t.

(** The paths [main] writes the narration and the video to on the day
    [today], and the PDF of a paper titled [raw_title] to. *)
Definition narration_path (today : str) : str :=
  Path.join SAVE_DIR (py "narration_" ++ today ++ py ".wav").

Definition video_path (today : str) : str :=
  Path.join SAVE_DIR (py "paper_video_" ++ today ++ py ".mp4").

Definition pdf_path_of (raw_title : str) : str :=
  Path.join SAVE_DIR (safe_filename raw_title ++ py ".pdf").

(** The request of [download_pdf] fails as far as the code is concerned: it
    raises, or the status is one [raise_for_status] raises for, 400 to 599.
    Any other status, a 300, a 304 or a 600 included, is no failure for the
    code, which then saves the body. *)
Inductive download_fails (env : Env) (pdf_url : str) : Prop :=
| fails_transport (msg : str) :
    requests_get env pdf_url 20 = inl (ConnectionError msg) ->
    download_fails env pdf_url
| fails_timeout (msg : str) :
    requests_get env pdf_url 20 = inl (Timeout msg) ->
    download_fails env pdf_url
| fails_status (res : Response) :
    requests_get env pdf_url 20 = inr res ->
    (400 <= status_code res < 600)%Z ->
    download_fails env pdf_url.

(** ** Sample runs *)

Module Sample.

Definition metan : Speaker :=
  {| speaker_name := py "四国めたん";
     speaker_styles := [ {| style_name := py "あまあま"; style_id := 0 |};
                         {| style_name := py "ノーマル"; style_id := 2 |} ] |}.

Definition zundamon : Speaker :=
  {| speaker_name := py "ずんだもん";
     speaker_styles := [ {| style_name := py "ノーマル"; style_id := 3 |} ] |}.

Definition outline_response : str :=
  py "METHOD: a first guess" ++ [Chr.LF]
  ++ py "here is the outline" ++ [Chr.LF]
  ++ py "TITLE: A/B" ++ [Chr.LF]
  ++ py "METHOD: uses X" ++ [Chr.LF]
  ++ py "RESULT : better ".

(** A run in which every service answers. *)
Definition run_a : Env := {|
  feed_entries := fun _ =>
    [ {| entry_title := py "A/B: Test?";
         entry_id := py "http://arxiv.org/abs/2401.00001v1" |} ];
  requests_get := fun u _ =>
    inr {| status_code := 200; reason := py "OK"; url := u;
           content := [Byte.x25; Byte.x50; Byte.x44; Byte.x46] |};
  open_wb := fun _ _ => None;
  fitz_open := fun _ => inr [inr (py "page one "); inr (py "page two")];
  generate_content := fun _ => inr outline_response;
  get_speakers := inr [zundamon; metan];
  post_audio_query := fun _ _ => inr ∅;
  post_synthesis := fun _ _ => inr [Byte.x52; Byte.x49];
  image_save := fun _ => None;
  image_clip := fun _ => None;
  audio_file_clip := fun _ => inr (7 # 2);
  write_videofile := fun _ => None;
  utcnow_Ymd := py "20240101"
|}.

(** Another paper on another day. *)
Definition run_b : Env := {|
  feed_entries := fun _ =>
    [ {| entry_title := py "Attention";
         entry_id := py "http://arxiv.org/abs/1706.03762v7" |} ];
  requests_get := requests_get run_a;
  open_wb := open_wb run_a;
  fitz_open := fun _ => inr [inr (py "another text")];
  generate_content := fun _ => inr (py "  three points  ");
  get_speakers := get_speakers run_a;
  post_audio_query := post_audio_query run_a;
  post_synthesis := post_synthesis run_a;
  image_save := image_save run_a;
  image_clip := image_clip run_a;
  audio_file_clip := fun _ => inr (95 # 1);
  write_videofile := write_videofile run_a;
  utcnow_Ymd := py "20240102"
|}.

(** The feed is empty. *)
Definition run_empty_feed : Env := {|
  feed_entries := fun _ => [];
  requests_get := requests_get run_a;
  open_wb := open_wb run_a;
  fitz_open := fitz_open run_a;
  generate_content := generate_content run_a;
  get_speakers := get_speakers run_a;
  post_audio_query := post_audio_query run_a;
  post_synthesis := post_synthesis run_a;
  image_save := image_save run_a;
  image_clip := image_clip run_a;
  audio_file_clip := audio_file_clip run_a;
  write_videofile := write_videofile run_a;
  utcnow_Ymd := utcnow_Ymd run_a
|}.

(** The server answers 404, and the second page of any PDF is unreadable. *)
Definition run_404 : Env := {|
  feed_entries := feed_entries run_a;
  requests_get := fun u _ =>
    inr {| status_code := 404; reason := py "Not Found"; url := u;
           content := [] |};
  open_wb := open_wb run_a;
  fitz_open := fun _ =>
    inr [inr (py "page one"); inl (LibraryError (py "cannot read page"))];
  generate_content := generate_content run_a;
  get_speakers := get_speakers run_a;
  post_audio_query := post_audio_query run_a;
  post_synthesis := post_synthesis run_a;
  image_save := image_save run_a;
  image_clip := image_clip run_a;
  audio_file_clip := audio_file_clip run_a;
  write_videofile := write_videofile run_a;
  utcnow_Ymd := utcnow_Ymd run_a
|}.

(** The catalog lacks the voice. *)
Definition run_no_voice : Env := {|
  feed_entries := feed_entries run_a;
  requests_get := requests_get run_a;
  open_wb := open_wb run_a;
  fitz_open := fitz_open run_a;
  generate_content := generate_content run_a;
  get_speakers := inr [zundamon];
  post_audio_query := post_audio_query run_a;
  post_synthesis := post_synthesis run_a;
  image_save := image_save run_a;
  image_clip := image_clip run_a;
  audio_file_clip := audio_file_clip run_a;
  write_videofile := write_videofile run_a;
  utcnow_Ymd := utcnow_Ymd run_a
|}.

End Sample.

(** ** Vocabulary of the further properties *)

(** A character [safe_filename] keeps as it is: outside the class and no
    underscore. *)
Definition ordinary (c : char) : bool :=
  negb (is_unsafe c) && negb (is_underscore c).

(** ** Sample runs in which something fails *)

Module Faulty.

(** The disk is full: no file can be written. *)
Definition run_disk_full : Env := {|
  feed_entries := feed_entries Sample.run_a;
  requests_get := requests_get Sample.run_a;
  open_wb := fun _ _ => Some (LibraryError (py "No space left on device"));
  fitz_open := fitz_open Sample.run_a;
  generate_content := generate_content Sample.run_a;
  get_speakers := get_speakers Sample.run_a;
  post_audio_query := post_audio_query Sample.run_a;
  post_synthesis := post_synthesis Sample.run_a;
  image_save := image_save Sample.run_a;
  image_clip := image_clip Sample.run_a;
  audio_file_clip := audio_file_clip Sample.run_a;
  write_videofile := write_videofile Sample.run_a;
  utcnow_Ymd := utcnow_Ymd Sample.run_a
|}.

(** The generative service is down. *)
Definition run_gen_down : Env := {|
  feed_entries := feed_entries Sample.run_a;
  requests_get := requests_get Sample.run_a;
  open_wb := open_wb Sample.run_a;
  fitz_open := fitz_open Sample.run_a;
  generate_content := fun _ => inl (LibraryError (py "503 Service Unavailable"));
  get_speakers := get_speakers Sample.run_a;
  post_audio_query := post_audio_query Sample.run_a;
  post_synthesis := post_synthesis Sample.run_a;
  image_save := image_save Sample.run_a;
  image_clip := image_clip Sample.run_a;
  audio_file_clip := audio_file_clip Sample.run_a;
  write_videofile := write_videofile Sample.run_a;
  utcnow_Ymd := utcnow_Ymd Sample.run_a
|}.

End Faulty.

(** Two neighbouring [c] somewhere in [s]. *)
Fixpoint adjacent (c : char) (s : str) : bool :=
  match s with
  | [] => false
  | a :: t =>
      ((a =? c) && match t with b :: _ => b =? c | [] => false end)
      || adjacent c t
  end.

(** The text [voicevox_tts] sends to the synthesis engine. *)
Definition cleaned_text (text : str) : str :=
  Str.replace [Chr.star; Chr.star] [] text.

Module Voices.

Definition metan_whisper : Speaker :=
  {| speaker_name := py "四国めたん";
     speaker_styles := [ {| style_name := py "ささやき"; style_id := 36 |} ] |}.

Definition metan_other : Speaker :=
  {| speaker_name := py "四国めたん";
     speaker_styles := [ {| style_name := py "ノーマル"; style_id := 99 |} ] |}.

(** The catalog lists the speaker three times: first without the style, then
    with it, then with it under another identifier. *)
Definition run_two_metan : Env := {|
  feed_entries := feed_entries Sample.run_a;
  requests_get := requests_get Sample.run_a;
  open_wb := open_wb Sample.run_a;
  fitz_open := fitz_open Sample.run_a;
  generate_content := generate_content Sample.run_a;
  get_speakers :=
    inr [Sample.zundamon; metan_whisper; Sample.metan; metan_other];
  post_audio_query := post_audio_query Sample.run_a;
  post_synthesis := post_synthesis Sample.run_a;
  image_save := image_save Sample.run_a;
  image_clip := image_clip Sample.run_a;
  audio_file_clip := audio_file_clip Sample.run_a;
  write_videofile := write_videofile Sample.run_a;
  utcnow_Ymd := utcnow_Ymd Sample.run_a
|}.

End Voices.

(** The environment [env] with another answer of the feed. *)
Definition with_feed (env : Env) (entries : str -> list Entry) : Env := {|
  feed_entries := entries;
  requests_get := requests_get env;
  open_wb := open_wb env;
  fitz_open := fitz_open env;
  generate_content := generate_content env;
  get_speakers := get_speakers env;
  post_audio_query := post_audio_query env;
  post_synthesis := post_synthesis env;
  image_save := image_save env;
  image_clip := image_clip env;
  audio_file_clip := audio_file_clip env;
  write_videofile := write_videofile env;
  utcnow_Ymd := utcnow_Ymd env
|}.

(** The image [main] renders for the section [key] of an outline. *)
Definition slide_event (structure : gmap (list N) (list N)) (key : str) : Event :=
  EImageSave (slide_path key) 1920 1080
             (key ++ [Chr.LF; Chr.LF] ++ default [] (structure !! key)).

(** [old] occurs in [s] at one of the first [n] positions. *)
Fixpoint occurs_within (old : str) (n : nat) (s : str) : bool :=
  match n, s with
  | S n', c :: t => Str.starts_with old s || occurs_within old n' t
  | _, _ => false
  end.

(** [old] occurs somewhere in [s]. *)
Definition occurs (old s : str) : bool := occurs_within old (length s) s.

(** ** The kinds of events, and the shape of a run *)

Inductive Kind :=
| KPrint | KFeedParse | KGet | KFileWrite | KFitzOpen | KGenerate
| KGetSpeakers | KAudioQuery | KSynthesis | KImageSave | KImageClip
| KAudioFileClip | KWriteVideofile.

Definition kind (ev : Event) : Kind :=
  match ev with
  | EPrint _ => KPrint
  | EFeedParse _ => KFeedParse
  | EGet _ _ => KGet
  | EFileWrite _ _ => KFileWrite
  | EFitzOpen _ => KFitzOpen
  | EGenerate _ => KGenerate
  | EGetSpeakers => KGetSpeakers
  | EAudioQuery _ _ => KAudioQuery
  | ESynthesis _ _ => KSynthesis
  | EImageSave _ _ _ _ => KImageSave
  | EImageClip _ => KImageClip
  | EAudioFileClip _ => KAudioFileClip
  | EWriteVideofile _ _ _ => KWriteVideofile
  end.

Definition kinds (t : list Event) : list Kind := map kind t.

Definition Kind_eqb (a b : Kind) : bool :=
  match a, b with
  | KPrint, KPrint | KFeedParse, KFeedParse | KGet, KGet
  | KFileWrite, KFileWrite | KFitzOpen, KFitzOpen | KGenerate, KGenerate
  | KGetSpeakers, KGetSpeakers | KAudioQuery, KAudioQuery
  | KSynthesis, KSynthesis | KImageSave, KImageSave | KImageClip, KImageClip
  | KAudioFileClip, KAudioFileClip | KWriteVideofile, KWriteVideofile => true
  | _, _ => false
  end.

(** How many events of the kind [k] a sequence of kinds has. *)
Definition calls (k : Kind) (ks : list Kind) : nat :=
  length (List.filter (Kind_eqb k) ks).

(** The events of a run that goes through to the end, by kind: the PDF is
    either saved and opened ([downloaded]) or its failure printed. *)
Definition full_run (downloaded : bool) : list Kind :=
  [KPrint; KFeedParse; KPrint; KGet]
  ++ (if downloaded then [KFileWrite; KFitzOpen] else [KPrint])
  ++ [KGenerate; KGenerate]
  ++ [KImageSave; KImageSave; KImageSave; KImageSave; KImageSave]
  ++ [KGetSpeakers; KAudioQuery; KSynthesis; KFileWrite]
  ++ [KImageClip; KImageClip; KImageClip; KImageClip; KImageClip]
  ++ [KAudioFileClip; KWriteVideofile; KPrint].

(** The computation [m] runs along [ks]: its events are, by kind, the first
    so many of [ks], and all of them if it returns. *)
Definition shaped {A} (ks : list Kind) (m : M A) : Prop :=
  kinds (trace m) `prefix_of` ks
  /\ (forall a, result m = Ok a -> kinds (trace m) = ks).

(** ** Vocabulary of the revised statements *)

(** [t] is [s] trimmed: [s] without a leading and a trailing stretch of
    whitespace, and with no whitespace left at either end. *)
Definition trimmed (s t : str) : Prop :=
  (exists w1 w2, s = w1 ++ t ++ w2
                 /\ forallb Str.isspace w1 = true
                 /\ forallb Str.isspace w2 = true)
  /\ (forall c, head t = Some c -> Str.isspace c = false)
  /\ (forall c, last t = Some c -> Str.isspace c = false).

(** The file [write_videofile(path, fps)] makes of a clip, as moviepy 1.x
    does it: the frames of the clip for its duration at [fps] frames per
    second, and the whole of the attached audio, which is written out in
    full and muxed without being cut to the picture. *)
Record VideoFile := {
  file_fps : Z;
  file_frames : Z;
  file_audio : option Q
}.

Definition video_file_of (clip : VideoClip) (fps : Z) : option VideoFile :=
  match clip_duration clip with
  | Some d =>
      Some {| file_fps := fps; file_frames := d * fps;
              file_audio := option_map audio_duration (clip_audio clip) |}
  | None => None
  end.

(** How long the picture of the file lasts, in seconds. *)
Definition picture_seconds (f : VideoFile) : Q :=
  inject_Z (file_frames f) / inject_Z (file_fps f).

(** How long the file lasts: as long as the longer of its two streams. *)
Definition file_duration (f : VideoFile) : Q :=
  match file_audio f with
  | Some a => if Qle_bool (picture_seconds f) a then a else picture_seconds f
  | None => picture_seconds f
  end.

Module Cached.

(** The server answers 304 Not Modified, with an empty body. *)
Definition run_304 : Env := {|
  feed_entries := feed_entries Sample.run_a;
  requests_get := fun u _ =>
    inr {| status_code := 304; reason := py "Not Modified"; url := u;
           content := [] |};
  open_wb := open_wb Sample.run_a;
  fitz_open := fun _ => inl (LibraryError (py "cannot open empty document"));
  generate_content := generate_content Sample.run_a;
  get_speakers := get_speakers Sample.run_a;
  post_audio_query := post_audio_query Sample.run_a;
  post_synthesis := post_synthesis Sample.run_a;
  image_save := image_save Sample.run_a;
  image_clip := image_clip Sample.run_a;
  audio_file_clip := audio_file_clip Sample.run_a;
  write_videofile := write_videofile Sample.run_a;
  utcnow_Ymd := utcnow_Ymd Sample.run_a
|}.

End Cached.

(* ===================================================================== *)
(** * Theorems *)
(* ===================================================================== *)

(** ** The library functions on samples *)

Example py_code_points : py "四国 A" = [22235; 22269; 32; 65].
Proof. reflexivity. Qed.

Example utf8_there_and_back :
  Utf8.decode (flat_map Utf8.encode1 (py "📥 ▶ 完é:")) = py "📥 ▶ 完é:".
Proof. vm_compute. reflexivity. Qed.

Example arxiv_url_value :
  arxiv_url
  = py "http://export.arxiv.org/api/query?search_query=cat%3Acs.AI+OR+cat%3Acs.LG+OR+cat%3Acs.CL+OR+cat%3Acs.CV+OR+cat%3Astat.ML&start=0&max_results=3&sortBy=submittedDate&sortOrder=descending".
Proof. vm_compute. reflexivity. Qed.

Example pdf_url_of_value :
  pdf_url_of {| entry_title := py "t";
                entry_id := py "http://arxiv.org/abs/2401.00001v1" |}
  = py "http://arxiv.org/pdf/2401.00001v1.pdf".
Proof. vm_compute. reflexivity. Qed.

Example replace_stars :
  Str.replace [Chr.star; Chr.star] [] (py "a **b** c***") = py "a b c*".
Proof. vm_compute. reflexivity. Qed.

Example split_lines :
  Str.split Chr.LF (py "a:b" ++ [Chr.LF; Chr.LF] ++ py "c" ++ [Chr.LF])
  = [py "a:b"; []; py "c"; []].
Proof. vm_compute. reflexivity. Qed.

Example split1_first_colon :
  Str.split1 Chr.colon (py "a:b:c") = (py "a", py "b:c").
Proof. vm_compute. reflexivity. Qed.

Example strip_whitespace :
  Str.strip ([9; 32] ++ py "uses X" ++ [13; 12288]) = py "uses X".
Proof. vm_compute. reflexivity. Qed.

Example join_paths :
  Path.join (py "outputs") (py "a.png") = py "outputs/a.png"
  /\ Path.join (py "outputs") (py "/a") = py "/a"
  /\ Path.join (py "outputs/") (py "a") = py "outputs/a".
Proof. vm_compute. auto. Qed.

Example status_text : Str.of_Z 404 = py "404".
Proof. vm_compute. reflexivity. Qed.


(** ** Stripping *)

Section Strip.
Variable p : char -> bool.

Lemma lstrip_by_suffix (s : str) :
  exists w, s = w ++ Str.lstrip_by p s /\ forallb p w = true.
Proof.
  induction s as [|c t [w [E F]]]; simpl.
  - exists []; auto.
  - destruct (p c) eqn:Hc.
    + exists (c :: w); simpl; rewrite Hc, F; split; [congruence | reflexivity].
    + exists []; auto.
Qed.

Lemma lstrip_by_head (s : str) (c : char) :
  head (Str.lstrip_by p s) = Some c -> p c = false.
Proof.
  induction s as [|a t IH]; simpl; [discriminate|].
  destruct (p a) eqn:Ha; [exact IH|].
  simpl; intros [= <-]; exact Ha.
Qed.

Lemma lstrip_by_id (s : str) :
  (forall c, head s = Some c -> p c = false) -> Str.lstrip_by p s = s.
Proof.
  destruct s as [|a t]; simpl; [reflexivity|].
  intros H; rewrite (H a eq_refl); reflexivity.
Qed.

Lemma rstrip_by_prefix (s : str) :
  exists w, s = Str.rstrip_by p s ++ w /\ forallb p w = true.
Proof.
  induction s as [|c t [w [E F]]]; simpl.
  - exists []; auto.
  - destruct (Str.rstrip_by p t) as [|r0 r] eqn:Hr.
    + destruct (p c) eqn:Hc.
      * exists (c :: w). simpl in *. subst t. rewrite Hc, F. auto.
      * exists w; simpl in *; split; [congruence | exact F].
    + exists w; simpl in *; split; [congruence | exact F].
Qed.

Lemma rstrip_by_last (s : str) (c : char) :
  last (Str.rstrip_by p s) = Some c -> p c = false.
Proof.
  induction s as [|a t IH]; simpl; [discriminate|].
  destruct (Str.rstrip_by p t) as [|r0 r] eqn:Hr.
  - destruct (p a) eqn:Ha; simpl; [discriminate|].
    intros [= <-]; exact Ha.
  - intros H; apply IH. exact H.
Qed.

Lemma rstrip_by_id (s : str) :
  (forall c, last s = Some c -> p c = false) -> Str.rstrip_by p s = s.
Proof.
  induction s as [|a t IH]; simpl; [reflexivity|].
  intros H. destruct t as [|b t'].
  - simpl. rewrite (H a eq_refl). reflexivity.
  - rewrite IH; [reflexivity|]. intros c Hc. apply H. exact Hc.
Qed.

Lemma rstrip_by_head (s : str) (c : char) :
  head (Str.rstrip_by p s) = Some c -> head s = Some c.
Proof.
  destruct (rstrip_by_prefix s) as [w [E _]].
  destruct (Str.rstrip_by p s) as [|r0 r]; simpl; [discriminate|].
  intros [= <-]. rewrite E. reflexivity.
Qed.

Lemma strip_by_parts (s : str) :
  exists w1 w2, s = w1 ++ Str.strip_by p s ++ w2
                /\ forallb p w1 = true /\ forallb p w2 = true.
Proof.
  unfold Str.strip_by.
  destruct (lstrip_by_suffix s) as [w1 [E F1]].
  destruct (rstrip_by_prefix (Str.lstrip_by p s)) as [w2 [E2 F2]].
  exists w1, w2. rewrite <- E2. auto.
Qed.

Lemma strip_by_infix (s : str) :
  exists w1 w2, s = w1 ++ Str.strip_by p s ++ w2.
Proof.
  destruct (strip_by_parts s) as (w1 & w2 & E & _). eauto.
Qed.

Lemma strip_by_head (s : str) (c : char) :
  head (Str.strip_by p s) = Some c -> p c = false.
Proof.
  unfold Str.strip_by. intros H.
  apply (lstrip_by_head s), rstrip_by_head, H.
Qed.

Lemma strip_by_last (s : str) (c : char) :
  last (Str.strip_by p s) = Some c -> p c = false.
Proof. apply rstrip_by_last. Qed.

Lemma strip_by_id (s : str) :
  (forall c, head s = Some c -> p c = false) ->
  (forall c, last s = Some c -> p c = false) ->
  Str.strip_by p s = s.
Proof.
  intros Hh Hl. unfold Str.strip_by.
  rewrite (lstrip_by_id s Hh). apply rstrip_by_id, Hl.
Qed.

End Strip.

(** ** Sanitised file names *)

Lemma is_underscore_spec (c : char) :
  is_underscore c = true <-> c = Chr.underscore.
Proof. unfold is_underscore. apply N.eqb_eq. Qed.

Lemma mem_underscore (c : char) :
  Str.mem c [Chr.underscore] = is_underscore c.
Proof. unfold Str.mem, is_underscore; simpl. apply orb_false_r. Qed.

Lemma is_unsafe_spec (c : char) :
  is_unsafe c = true <-> c ∈ unsafe_chars.
Proof.
  unfold is_unsafe, Str.mem. rewrite existsb_exists. split.
  - intros [x [Hx E]]. apply N.eqb_eq in E. subst x.
    apply list_elem_of_In, Hx.
  - intros H. exists c. split; [apply list_elem_of_In, H | apply N.eqb_refl].
Qed.

Lemma sub_class_clean (s : str) :
  clean (Re.sub_class is_unsafe [Chr.underscore] s).
Proof.
  unfold clean, Re.sub_class. induction s as [|c t IH]; simpl.
  - constructor.
  - destruct (is_unsafe c) eqn:Hc; simpl; constructor; auto.
Qed.

Lemma sub_class_id (s : str) :
  clean s -> Re.sub_class is_unsafe [Chr.underscore] s = s.
Proof.
  unfold Re.sub_class. induction 1 as [|c t Hc _ IH]; simpl; [reflexivity|].
  rewrite Hc. simpl. f_equal. exact IH.
Qed.

Lemma sub_runs_from_clean (b : bool) (s : str) :
  clean s -> clean (Re.sub_runs_from is_underscore [Chr.underscore] b s).
Proof.
  intros H. revert b. induction H as [|c t Hc _ IH]; intros b; simpl.
  - constructor.
  - destruct (is_underscore c) eqn:Hu.
    + destruct b; simpl; [apply IH|]. constructor; [reflexivity | apply IH].
    + constructor; [exact Hc | apply IH].
Qed.

Lemma sub_runs_from_no_run (s : str) :
  forall b,
    has_run (Re.sub_runs_from is_underscore [Chr.underscore] b s) = false
    /\ (b = true ->
        forall c, head (Re.sub_runs_from is_underscore [Chr.underscore] b s) = Some c ->
                  is_underscore c = false).
Proof.
  induction s as [|a t IH]; intros b; simpl.
  - split; [reflexivity | discriminate].
  - destruct (is_underscore a) eqn:Ha.
    + destruct (IH true) as [Hr Hh]. destruct b; simpl.
      * split; [exact Hr | intros _; apply Hh; reflexivity].
      * split; [|discriminate]. rewrite Hr, orb_false_r.
        destruct (Re.sub_runs_from _ _ true t) as [|x r] eqn:E; [reflexivity|].
        simpl. apply (Hh eq_refl x). reflexivity.
    + destruct (IH false) as [Hr _]. simpl. rewrite Ha, Hr. simpl.
      split; [reflexivity|]. intros _ c [= <-]. exact Ha.
Qed.

Lemma sub_runs_from_id (s : str) :
  has_run s = false ->
  forall b,
    (b = true -> forall c, head s = Some c -> is_underscore c = false) ->
    Re.sub_runs_from is_underscore [Chr.underscore] b s = s.
Proof.
  induction s as [|a t IH]; intros Hr b Hb; simpl; [reflexivity|].
  simpl in Hr. apply orb_false_iff in Hr as [Hat Ht].
  destruct (is_underscore a) eqn:Ha.
  - destruct b.
    + rewrite (Hb eq_refl a eq_refl) in Ha. discriminate.
    + simpl. apply is_underscore_spec in Ha. subst a. f_equal.
      apply IH; [exact Ht|]. intros _ c Hc.
      destruct t as [|x t']; [discriminate|]. simpl in Hc, Hat.
      injection Hc as ->. exact Hat.
  - f_equal. apply IH; [exact Ht | discriminate].
Qed.

Lemma has_run_app_r (u v : str) : has_run (u ++ v) = false -> has_run v = false.
Proof.
  induction u as [|a u IH]; simpl; [auto|].
  intros H. apply orb_false_iff in H as [_ H]. auto.
Qed.

Lemma has_run_app_l (u v : str) : has_run (u ++ v) = false -> has_run u = false.
Proof.
  induction u as [|a u IH]; simpl; [auto|].
  intros H. apply orb_false_iff in H as [Ha H]. rewrite (IH H), orb_false_r.
  destruct u as [|b u']; simpl in *; [|exact Ha].
  apply andb_false_r.
Qed.

Lemma has_run_lookup (s : str) (i : nat) :
  has_run s = false ->
  s !! i = Some Chr.underscore -> s !! S i <> Some Chr.underscore.
Proof.
  revert i. induction s as [|a t IH]; intros i Hr; [discriminate|].
  simpl in Hr. apply orb_false_iff in Hr as [Ha Ht].
  destruct i as [|i]; simpl.
  - intros [= ->]. destruct t as [|b t']; simpl; [discriminate|].
    intros [= ->]. discriminate.
  - apply IH, Ht.
Qed.

Section SafeFilename.
Variable s : str.

Lemma safe_filename_infix :
  exists w1 w2, collapsed s = w1 ++ safe_filename s ++ w2.
Proof. apply strip_by_infix. Qed.

Lemma safe_filename_clean : clean (safe_filename s).
Proof.
  destruct safe_filename_infix as [w1 [w2 E]].
  assert (H : clean (collapsed s))
    by apply sub_runs_from_clean, sub_class_clean.
  rewrite E in H. unfold clean in *.
  apply Forall_app in H as [_ H]. apply Forall_app in H as [H _]. exact H.
Qed.

Lemma safe_filename_no_run : has_run (safe_filename s) = false.
Proof.
  destruct safe_filename_infix as [w1 [w2 E]].
  assert (H : has_run (collapsed s) = false) by apply sub_runs_from_no_run.
  rewrite E in H. apply has_run_app_r, has_run_app_l in H. exact H.
Qed.

Lemma safe_filename_head (c : char) :
  head (safe_filename s) = Some c -> is_underscore c = false.
Proof.
  intros H. rewrite <- mem_underscore.
  exact (strip_by_head _ _ c H).
Qed.

Lemma safe_filename_last (c : char) :
  last (safe_filename s) = Some c -> is_underscore c = false.
Proof.
  intros H. rewrite <- mem_underscore.
  exact (strip_by_last _ _ c H).
Qed.

End SafeFilename.

Lemma safe_filename_fixed (r : str) :
  clean r -> has_run r = false ->
  (forall c, head r = Some c -> is_underscore c = false) ->
  (forall c, last r = Some c -> is_underscore c = false) ->
  safe_filename r = r.
Proof.
  intros Hc Hr Hh Hl. unfold safe_filename.
  rewrite (sub_class_id r Hc). unfold Re.sub_runs.
  rewrite (sub_runs_from_id r Hr false) by discriminate.
  apply strip_by_id; intros c H; rewrite mem_underscore; auto.
Qed.

(** C10. [safe_filename] is idempotent: sanitising a sanitised name changes
    nothing, [safe_filename (safe_filename s) = safe_filename s] for every
    string [s]. *)
Theorem safe_filename_idempotent (s : str) :
  safe_filename (safe_filename s) = safe_filename s.
Proof.
  apply safe_filename_fixed.
  - apply safe_filename_clean.
  - apply safe_filename_no_run.
  - apply safe_filename_head.
  - apply safe_filename_last.
Qed.

(** C1 (as the claim states it, refuted). The title [A/B: Test?] is not
    sanitised to [A_B_Test]: the space after the colon is no member of the
    character class and stays. *)
Lemma safe_filename_title_not_A_B_Test :
  safe_filename (py "A/B: Test?") <> py "A_B_Test".
Proof. vm_compute. discriminate. Qed.

(** C1 (amended). The title [A/B: Test?] is sanitised to [A_B_ Test], the
    space being kept; and for every title no character of the class
    (less-than, greater-than, colon, double quote, slash, backslash, bar,
    question mark, star, CR, LF) is left in the result, no two underscores are
    neighbours in it, and it neither starts nor ends with an underscore. *)
Theorem safe_filename_title :
  safe_filename (py "A/B: Test?") = py "A_B_ Test"
  /\ forall s : str,
       (forall c, c ∈ safe_filename s -> c ∉ unsafe_chars)
       /\ (forall i, safe_filename s !! i = Some Chr.underscore ->
                     safe_filename s !! S i <> Some Chr.underscore)
       /\ head (safe_filename s) <> Some Chr.underscore
       /\ last (safe_filename s) <> Some Chr.underscore.
Proof.
  split; [vm_compute; reflexivity|].
  intros s. repeat split.
  - intros c Hc Hu. apply is_unsafe_spec in Hu.
    pose proof (safe_filename_clean s) as H. unfold clean in H.
    rewrite Forall_forall in H. rewrite (H c Hc) in Hu. discriminate.
  - intros i. apply has_run_lookup, safe_filename_no_run.
  - intros H. apply safe_filename_head in H. discriminate.
  - intros H. apply safe_filename_last in H. discriminate.
Qed.

Lemma safe_filename_title_witness :
  (Chr.underscore ∉ unsafe_chars)
  /\ safe_filename (py "a::/b") !! 2%nat <> Some Chr.underscore.
Proof.
  destruct safe_filename_title as [_ H].
  destruct (H (py "a::/b")) as (Hclass & Hrun & _ & _).
  split.
  - apply (Hclass Chr.underscore). apply list_elem_of_In. vm_compute. tauto.
  - apply (Hrun 1%nat). vm_compute. reflexivity.
Defined.

(** ** The outline parser *)

Lemma contains_spec (sep : char) (s : str) :
  Str.contains sep s = true <-> sep ∈ s.
Proof.
  unfold Str.contains. rewrite existsb_exists. split.
  - intros [x [Hx E]]. apply N.eqb_eq in E. subst x.
    apply list_elem_of_In, Hx.
  - intros H. exists sep. split; [apply list_elem_of_In, H | apply N.eqb_refl].
Qed.

Lemma contains_false (sep : char) (s : str) :
  sep ∉ s -> Str.contains sep s = false.
Proof.
  intros H. destruct (Str.contains sep s) eqn:E; [|reflexivity].
  apply contains_spec in E. contradiction.
Qed.

Lemma split1_first (sep : char) (k v : str) :
  sep ∉ k -> Str.split1 sep (k ++ sep :: v) = (k, v).
Proof.
  induction k as [|c k IH]; intros Hk; simpl.
  - rewrite N.eqb_refl. reflexivity.
  - apply not_elem_of_cons in Hk as [Hc Hk].
    destruct (c =? sep) eqn:E; [apply N.eqb_eq in E; congruence|].
    rewrite (IH Hk). reflexivity.
Qed.

Lemma split_join (sep : char) (s : str) :
  join sep (Str.split sep s) = s /\ Str.split sep s <> [].
Proof.
  induction s as [|c t [IH Hne]]; simpl; [split; [reflexivity | discriminate]|].
  destruct (c =? sep) eqn:E.
  - apply N.eqb_eq in E. subst c. split; [|discriminate].
    destruct (Str.split sep t) as [|w ws]; [contradiction|].
    simpl in *. rewrite IH. reflexivity.
  - destruct (Str.split sep t) as [|w ws]; [contradiction|].
    split; [|discriminate].
    destruct ws as [|w' ws']; simpl in *; rewrite <- IH; reflexivity.
Qed.

Lemma split_no_sep (sep : char) (s : str) :
  Forall (fun line => sep ∉ line) (Str.split sep s).
Proof.
  induction s as [|c t IH]; simpl.
  - repeat constructor. apply not_elem_of_nil.
  - destruct (c =? sep) eqn:E.
    + constructor; [apply not_elem_of_nil | exact IH].
    + destruct (Str.split sep t) as [|w ws].
      * repeat constructor. apply not_elem_of_cons. split.
        -- intros ->. rewrite N.eqb_refl in E. discriminate.
        -- apply not_elem_of_nil.
      * inversion IH as [|? ? Hw Hws]; subst. constructor; [|exact Hws].
        apply not_elem_of_cons. split; [|exact Hw].
        intros ->. rewrite N.eqb_refl in E. discriminate.
Qed.

Lemma parse_line_pair (slides : gmap (list N) (list N)) (key val : str) :
  Chr.colon ∉ key ->
  parse_line slides (key ++ Chr.colon :: val)
  = <[Str.strip key := Str.strip val]> slides.
Proof.
  intros Hk. unfold parse_line.
  assert (H : Str.contains Chr.colon (key ++ Chr.colon :: val) = true).
  { apply contains_spec, elem_of_app. right. left. }
  rewrite H, (split1_first _ _ _ Hk). reflexivity.
Qed.

Lemma parse_line_no_separator (slides : gmap (list N) (list N)) (line : str) :
  Chr.colon ∉ line -> parse_line slides line = slides.
Proof.
  intros H. unfold parse_line. rewrite (contains_false _ _ H). reflexivity.
Qed.

Lemma line_key_pair (key val : str) :
  Chr.colon ∉ key ->
  line_key (key ++ Chr.colon :: val) = Some (Str.strip key).
Proof.
  intros Hk. unfold line_key.
  assert (H : Str.contains Chr.colon (key ++ Chr.colon :: val) = true).
  { apply contains_spec, elem_of_app. right. left. }
  rewrite H, (split1_first _ _ _ Hk). reflexivity.
Qed.

Lemma parse_line_other_key (slides : gmap (list N) (list N)) (line k : str) :
  line_key line <> Some k -> parse_line slides line !! k = slides !! k.
Proof.
  unfold line_key, parse_line.
  destruct (Str.contains Chr.colon line); [|reflexivity].
  destruct (Str.split1 Chr.colon line) as [key val]. simpl.
  intros H. apply lookup_insert_ne. congruence.
Qed.

Lemma parse_lines_other_key (lines : list str) (k : str) :
  Forall (fun line => line_key line <> Some k) lines ->
  forall slides : gmap (list N) (list N),
    foldl parse_line slides lines !! k = slides !! k.
Proof.
  induction 1 as [|line lines Hl _ IH]; intros slides; simpl; [reflexivity|].
  rewrite IH. apply parse_line_other_key, Hl.
Qed.

Lemma parse_lines_last_wins (before after : list str) (key val : str) :
  Chr.colon ∉ key ->
  Forall (fun line => line_key line <> Some (Str.strip key)) after ->
  foldl parse_line ∅ (before ++ (key ++ Chr.colon :: val) :: after)
    !! Str.strip key = Some (Str.strip val).
Proof.
  intros Hk Hafter. rewrite foldl_app. simpl.
  rewrite (parse_lines_other_key _ _ Hafter), (parse_line_pair _ _ _ Hk).
  apply lookup_insert_eq.
Qed.

Lemma strip_trimmed (s : str) : trimmed s (Str.strip s).
Proof.
  split; [apply strip_by_parts|].
  split; intros c; [apply strip_by_head | apply strip_by_last].
Qed.

(** C2. Whatever the generative service answers, [build_slide_structure]
    returns the mapping obtained by going through the lines of the answer
    (its segments between line feeds) in order; a line [key:val] whose [key]
    has no colon binds the trimmed [key] to the trimmed [val], trimmed
    meaning: without the whitespace before and after, none being left at
    either end; a line without a colon leaves the mapping as it is; and a
    key bound on several lines ends up with the value of the last of them.
    In particular the line [METHOD: uses X], also when written with blanks
    around the key and the value, leaves [METHOD] bound to [uses X] when no
    later line binds [METHOD] again. *)
Theorem build_slide_structure_parses (env : Env) (title summary res : str) :
  generate_content env (outline_prompt title summary) = inr res ->
  let lines := Str.split Chr.LF res in
    join Chr.LF lines = res
    /\ Forall (fun line => Chr.LF ∉ line) lines
    /\ result (build_slide_structure env title summary)
       = Ok (foldl parse_line ∅ lines)
    /\ (forall slides key val,
          Chr.colon ∉ key ->
          exists k v,
            trimmed key k /\ trimmed val v
            /\ k = Str.strip key /\ v = Str.strip val
            /\ parse_line slides (key ++ Chr.colon :: val) = <[k := v]> slides)
    /\ (forall slides line,
          Chr.colon ∉ line -> parse_line slides line = slides)
    /\ (forall before key val after,
          lines = before ++ (key ++ Chr.colon :: val) :: after ->
          Chr.colon ∉ key ->
          Forall (fun line => line_key line <> Some (Str.strip key)) after ->
          exists k v,
            trimmed key k /\ trimmed val v
            /\ foldl parse_line ∅ lines !! k = Some v)
    /\ (forall before after,
          lines = before ++ py "METHOD: uses X" :: after ->
          Forall (fun line => line_key line <> Some (py "METHOD")) after ->
          foldl parse_line ∅ lines !! py "METHOD" = Some (py "uses X"))
    /\ (forall before after,
          lines = before ++ py "  METHOD :   uses X  " :: after ->
          Forall (fun line => line_key line <> Some (py "METHOD")) after ->
          foldl parse_line ∅ lines !! py "METHOD" = Some (py "uses X")).
Proof.
  intros Hres lines. subst lines.
  split; [apply split_join|].
  split; [apply split_no_sep|].
  split.
  { unfold build_slide_structure, result, bind, call. rewrite Hres.
    reflexivity. }
  split.
  { intros slides key val Hk. exists (Str.strip key), (Str.strip val).
    split; [apply strip_trimmed|]. split; [apply strip_trimmed|].
    split; [reflexivity|]. split; [reflexivity|].
    apply parse_line_pair, Hk. }
  split; [exact parse_line_no_separator|].
  split.
  { intros before key val after -> Hk Hafter.
    exists (Str.strip key), (Str.strip val).
    split; [apply strip_trimmed|]. split; [apply strip_trimmed|].
    apply parse_lines_last_wins; assumption. }
  split.
  - intros before after -> Hafter.
    apply (parse_lines_last_wins before after (py "METHOD") (py " uses X"));
      [|exact Hafter].
    intros H. apply contains_spec in H. vm_compute in H. discriminate.
  - intros before after -> Hafter.
    apply (parse_lines_last_wins before after (py "  METHOD ")
             (py "   uses X  ")); [|exact Hafter].
    intros H. apply contains_spec in H. vm_compute in H. discriminate.
Qed.

Lemma build_slide_structure_parses_witness :
  let lines := Str.split Chr.LF Sample.outline_response in
  foldl parse_line ∅ lines !! py "METHOD" = Some (py "uses X")
  /\ (exists k v,
        trimmed (py "RESULT ") k /\ trimmed (py " better ") v
        /\ k = py "RESULT" /\ v = py "better"
        /\ foldl parse_line ∅ lines !! k = Some v)
  /\ result (build_slide_structure Sample.run_a (py "A/B: Test?") (py "s"))
     = Ok (foldl parse_line ∅ lines).
Proof.
  destruct (build_slide_structure_parses Sample.run_a (py "A/B: Test?") (py "s")
              Sample.outline_response eq_refl)
    as (_ & _ & Hr & Hline & _ & Hlast & Hmethod & _).
  intros lines. split; [|split; [|exact Hr]].
  - apply (Hmethod [py "METHOD: a first guess"; py "here is the outline";
                    py "TITLE: A/B"] [py "RESULT : better "]).
    + vm_compute. reflexivity.
    + repeat constructor. vm_compute. discriminate.
  - assert (Hk : Chr.colon ∉ py "RESULT ").
    { intros H. apply contains_spec in H. vm_compute in H. discriminate. }
    destruct (Hline ∅ (py "RESULT ") (py " better ") Hk)
      as (k & v & Htk & Htv & Ek & Ev & _).
    destruct (Hlast [py "METHOD: a first guess"; py "here is the outline";
                     py "TITLE: A/B"; py "METHOD: uses X"]
                    (py "RESULT ") (py " better ") []) as (k' & v' & _ & _ & _).
    + vm_compute. reflexivity.
    + exact Hk.
    + constructor.
    + exists k, v. split; [exact Htk|]. split; [exact Htv|].
      split; [rewrite Ek; vm_compute; reflexivity|].
      split; [rewrite Ev; vm_compute; reflexivity|].
      rewrite Ek, Ev. vm_compute. reflexivity.
Defined.

(** ** Narration *)

Lemma str_eqb_spec (a b : str) : Str.eqb a b = true <-> a = b.
Proof.
  revert b. induction a as [|x a IH]; intros [|y b]; simpl;
    try (split; [discriminate | congruence]); [tauto|].
  rewrite andb_true_iff, N.eqb_eq, IH. split; [intros [-> ->] | intros [= -> ->]]; auto.
Qed.

Lemma find_style_none (style : str) (styles : list Style) :
  (forall st, st ∈ styles -> style_name st <> style) ->
  find_style style styles = None.
Proof.
  induction styles as [|st rest IH]; intros H; simpl; [reflexivity|].
  destruct (Str.eqb (style_name st) style) eqn:E.
  - apply str_eqb_spec in E. exfalso. apply (H st); [left | exact E].
  - apply IH. intros st' Hin. apply H. right. exact Hin.
Qed.

Lemma find_speaker_none (name style : str) (catalog : list Speaker) :
  ~ voice_match name style catalog -> find_speaker name style catalog = None.
Proof.
  induction catalog as [|sp rest IH]; intros H; simpl; [reflexivity|].
  assert (Hrest : find_speaker name style rest = None).
  { apply IH. intros (sp' & st & Hsp & Hst & Hn & Hs). apply H.
    exists sp', st. repeat split; auto. right. exact Hsp. }
  rewrite Hrest. destruct (Str.eqb (speaker_name sp) name) eqn:E; [|reflexivity].
  apply str_eqb_spec in E. rewrite find_style_none; [reflexivity|].
  intros st Hst Hs. apply H. exists sp, st. repeat split; auto. left.
Qed.

(** C3. When the catalog the service lists has no speaker of the asked name
    with a style of the asked name, [get_speaker_id] returns [None] for that
    name and style, whichever they are; and [voicevox_tts], which asks for
    the voice 四国めたん in the style ノーマル, then raises its
    [RuntimeError] (the voice was not found) having made one call only, the
    listing of the speakers: neither [audio_query] nor [synthesis] is
    posted. *)
Theorem voicevox_tts_voice_not_found (env : Env) (catalog : list Speaker) :
  get_speakers env = inr catalog ->
  (forall name style,
     ~ voice_match name style catalog ->
     get_speaker_id env name style = ([EGetSpeakers], Ok None))
  /\ (~ voice_match default_name default_style catalog ->
      forall (text filename : str) (speed : Q),
        voicevox_tts env text filename speed
        = ([EGetSpeakers], Raise (RuntimeError (py "四国めたんが見つかりません")))).
Proof.
  intros Hcat.
  assert (Hid : forall name style,
             ~ voice_match name style catalog ->
             get_speaker_id env name style = ([EGetSpeakers], Ok None)).
  { intros name style Hno. unfold get_speaker_id, bind, call, ret.
    rewrite Hcat, (find_speaker_none _ _ _ Hno). reflexivity. }
  split; [exact Hid|].
  intros Hno text filename speed. unfold voicevox_tts.
  rewrite (Hid _ _ Hno). reflexivity.
Qed.

Lemma voicevox_tts_voice_not_found_witness :
  get_speaker_id Sample.run_no_voice (py "四国めたん") (py "ノーマル")
  = ([EGetSpeakers], Ok None)
  /\ voicevox_tts Sample.run_no_voice (py "**three** points") (py "n.wav") (11 # 10)
     = ([EGetSpeakers], Raise (RuntimeError (py "四国めたんが見つかりません"))).
Proof.
  assert (Hno : ~ voice_match (py "四国めたん") (py "ノーマル") [Sample.zundamon]).
  { intros (sp & st & Hsp & _ & Hn & _).
    apply list_elem_of_singleton in Hsp. subst sp.
    vm_compute in Hn. discriminate. }
  destruct (voicevox_tts_voice_not_found Sample.run_no_voice [Sample.zundamon]
              eq_refl) as [Hid Htts].
  split; [apply Hid, Hno | apply Htts, Hno].
Defined.

(** ** The summary *)

Lemma strip_spec (s : str) :
  (exists w1 w2, s = w1 ++ Str.strip s ++ w2
                 /\ forallb Str.isspace w1 = true
                 /\ forallb Str.isspace w2 = true)
  /\ (forall c, head (Str.strip s) = Some c -> Str.isspace c = false)
  /\ (forall c, last (Str.strip s) = Some c -> Str.isspace c = false).
Proof.
  split; [apply strip_by_parts|].
  split; intros c; [apply strip_by_head | apply strip_by_last].
Qed.

Lemma truncated_take (text : str) :
  (if (MAX_CHARS <? length text)%nat then take MAX_CHARS text else text)
  = take MAX_CHARS text.
Proof.
  destruct (MAX_CHARS <? length text)%nat eqn:E; [reflexivity|].
  apply Nat.ltb_ge in E. symmetry. apply take_ge. exact E.
Qed.

(** C4. For every text, the empty one included, [summarize_text_ja] makes one
    call to the generative service; the prompt of that call holds, between
    the fixed instruction and the closing line feed, the first 5000
    characters of the text (all of it when it has no more), so at most 5000
    characters of it; and when the service answers, the function returns the
    answer stripped: the answer without a leading and a trailing stretch of
    whitespace, starting and ending with a character that is no
    whitespace. *)
Theorem summarize_text_ja_cap (env : Env) (text : str) :
  let sent := take 5000 text in
  (length sent <= 5000)%nat
  /\ sent `prefix_of` text
  /\ ((length text <= 5000)%nat -> sent = text)
  /\ trace (summarize_text_ja env text) = [EGenerate (summary_prompt sent)]
  /\ (forall response,
        generate_content env (summary_prompt sent) = inr response ->
        result (summarize_text_ja env text) = Ok (Str.strip response)
        /\ (exists w1 w2, response = w1 ++ Str.strip response ++ w2
                          /\ forallb Str.isspace w1 = true
                          /\ forallb Str.isspace w2 = true)
        /\ (forall c, head (Str.strip response) = Some c -> Str.isspace c = false)
        /\ (forall c, last (Str.strip response) = Some c -> Str.isspace c = false)).
Proof.
  intros sent. subst sent.
  split; [rewrite length_take; lia|].
  split; [apply prefix_take|].
  split; [intros H; apply take_ge; exact H|].
  unfold summarize_text_ja. rewrite truncated_take.
  change MAX_CHARS with 5000%nat.
  split.
  { unfold trace, bind, call.
    destruct (generate_content env (summary_prompt (take 5000 text)));
      reflexivity. }
  intros response Hr. split; [|apply strip_spec].
  unfold result, bind, call. rewrite Hr. reflexivity.
Qed.

Lemma summarize_text_ja_cap_witness :
  result (summarize_text_ja Sample.run_b (repeat 97 (5000 + 1000))) = Ok (py "three points")
  /\ trace (summarize_text_ja Sample.run_b (repeat 97 (5000 + 1000)))
     = [EGenerate (summary_prompt (repeat 97 5000))]
  /\ trace (summarize_text_ja Sample.run_b [])
     = [EGenerate (summary_prompt [])].
Proof.
  destruct (summarize_text_ja_cap Sample.run_b (repeat 97 (5000 + 1000)))
    as (_ & _ & _ & Ht & Hr).
  destruct (Hr (py "  three points  ") eq_refl) as [Hok _].
  destruct (summarize_text_ja_cap Sample.run_b [])
    as (_ & _ & _ & Ht0 & _).
  split; [exact Hok|]. split; [exact Ht | exact Ht0].
Defined.

(** ** The video *)

Lemma image_clips_loaded (env : Env) (slide_paths : list str) :
  Forall (fun p => image_clip env p = None) slide_paths ->
  mapM (fun p => do c <- ImageClip env p; ret (Moviepy.set_duration 4 c))
       slide_paths
  = (map EImageClip slide_paths, Ok (map still slide_paths)).
Proof.
  induction 1 as [|p ps Hp _ IH]; simpl; [reflexivity|].
  rewrite IH. unfold ImageClip, bind, call_, ret. rewrite Hp. simpl.
  rewrite app_nil_r. reflexivity.
Qed.

Lemma stills_total_duration (slide_paths : list str) :
  Moviepy.total_duration (map still slide_paths)
  = Some (4 * Z.of_nat (length slide_paths))%Z.
Proof.
  induction slide_paths as [|p ps IH]; [reflexivity|].
  cbn [map Moviepy.total_duration length]. rewrite IH.
  cbn [still Moviepy.set_duration clip_duration]. f_equal. lia.
Qed.

Lemma stills_images (slide_paths : list str) :
  flat_map clip_images (map still slide_paths) = slide_paths.
Proof.
  induction slide_paths as [|p ps IH]; simpl; [reflexivity|].
  rewrite IH. reflexivity.
Qed.

Lemma concatenate_stills (slide_paths : list str) :
  slide_paths <> [] ->
  Moviepy.concatenate_videoclips (map still slide_paths)
  = ret {| clip_images := slide_paths;
           clip_duration := Some (4 * Z.of_nat (length slide_paths))%Z;
           clip_audio := None |}.
Proof.
  intros Hne. unfold Moviepy.concatenate_videoclips.
  rewrite stills_images.
  destruct slide_paths as [|p ps]; [contradiction|].
  cbn [map]. change (still p :: map still ps) with (map still (p :: ps)).
  rewrite stills_total_duration. reflexivity.
Qed.

Lemma generate_video_clip (env : Env) (slide_paths : list str)
      (audio_path output_path : str) (d : Q) :
  slide_paths <> [] ->
  Forall (fun p => image_clip env p = None) slide_paths ->
  audio_file_clip env audio_path = inr d ->
  write_videofile env output_path = None ->
  generate_video env slide_paths audio_path output_path
  = (map EImageClip slide_paths
     ++ [EAudioFileClip audio_path;
         EWriteVideofile output_path 24
           {| clip_images := slide_paths;
              clip_duration := Some (4 * Z.of_nat (length slide_paths))%Z;
              clip_audio := Some {| audio_file := audio_path;
                                    audio_duration := d |} |}],
     Ok output_path).
Proof.
  intros Hne Himg Haudio Hwrite. unfold generate_video.
  rewrite (image_clips_loaded env slide_paths Himg).
  unfold bind at 1. rewrite (concatenate_stills slide_paths Hne).
  unfold AudioFileClip, bind, call, call_, ret, Moviepy.set_audio.
  rewrite Haudio. cbn [clip_images clip_duration]. rewrite Hwrite.
  rewrite !app_nil_r. cbn [app]. reflexivity.
Qed.

Lemma twenty_seconds_of_picture (final : VideoClip) (file : VideoFile) :
  clip_duration final = Some (5 * 4)%Z ->
  video_file_of final 24 = Some file ->
  file_fps file = 24%Z /\ file_frames file = (5 * 4 * 24)%Z
  /\ (picture_seconds file == 20)%Q
  /\ file_audio file = option_map audio_duration (clip_audio final).
Proof.
  unfold video_file_of. intros -> [= <-]. cbn.
  split; [reflexivity|]. split; [reflexivity|]. split; reflexivity.
Qed.

Lemma file_duration_max (file : VideoFile) (d : Q) :
  (picture_seconds file == 20)%Q ->
  file_audio file = Some d ->
  ((d <= 20)%Q -> (file_duration file == 20)%Q)
  /\ ((20 <= d)%Q -> (file_duration file == d)%Q).
Proof.
  intros Hp Ha. unfold file_duration. rewrite Ha.
  destruct (Qle_bool (picture_seconds file) d) eqn:E.
  - apply Qle_bool_iff in E. rewrite Hp in E. split; intros H.
    + apply Qle_antisym; assumption.
    + reflexivity.
  - split; intros H; [exact Hp|].
    assert (E' : Qle_bool (picture_seconds file) d = true)
      by (apply Qle_bool_iff; rewrite Hp; exact H).
    congruence.
Qed.

(** C6 (as the claim states it, refuted). With five slides and a narration
    of 95 seconds, the file [generate_video] writes lasts 95 seconds and not
    5 x 4 = 20: the picture ends after 20 seconds and the audio, which is not
    cut, plays on. *)
Lemma long_narration_outlasts_slides :
  exists final file,
    generate_video Sample.run_b (map slide_path slide_keys)
                   (py "outputs/narration_20240102.wav")
                   (py "outputs/paper_video_20240102.mp4")
    = (map EImageClip (map slide_path slide_keys)
       ++ [EAudioFileClip (py "outputs/narration_20240102.wav");
           EWriteVideofile (py "outputs/paper_video_20240102.mp4") 24 final],
       Ok (py "outputs/paper_video_20240102.mp4"))
    /\ video_file_of final 24 = Some file
    /\ (file_duration file == 95)%Q
    /\ ~ (file_duration file == 5 * 4)%Q.
Proof.
  eexists _, _. split; [vm_compute; reflexivity|].
  split; [reflexivity|]. split; [reflexivity|].
  vm_compute. discriminate.
Qed.

(** C6 (amended). Given five slide paths whose images load, an audio file
    that loads, whatever its duration [d], and a writable output,
    [generate_video] loads the five images and the audio and writes one
    video file at 24 frames per second from a clip that shows the five
    slides in order for 5 x 4 = 20 seconds, each slide 4 seconds, whatever
    the audio lasts: the file has 480 frames of picture. The audio is
    attached as it is, so the file lasts 20 seconds when the narration lasts
    at most 20 seconds, and as long as the narration when that is longer. *)
Theorem generate_video_duration (env : Env) (slide_paths : list str)
        (audio_path output_path : str) (d : Q) :
  length slide_paths = 5%nat ->
  Forall (fun p => image_clip env p = None) slide_paths ->
  audio_file_clip env audio_path = inr d ->
  write_videofile env output_path = None ->
  exists (final : VideoClip) (file : VideoFile),
    generate_video env slide_paths audio_path output_path
    = (map EImageClip slide_paths
       ++ [EAudioFileClip audio_path; EWriteVideofile output_path 24 final],
       Ok output_path)
    /\ clip_duration final = Some (5 * 4)%Z
    /\ clip_images final = slide_paths
    /\ clip_audio final
       = Some {| audio_file := audio_path; audio_duration := d |}
    /\ video_file_of final 24 = Some file
    /\ file_fps file = 24%Z
    /\ file_frames file = (5 * 4 * 24)%Z
    /\ (picture_seconds file == 5 * 4)%Q
    /\ file_audio file = Some d
    /\ ((d <= 5 * 4)%Q -> (file_duration file == 5 * 4)%Q)
    /\ ((5 * 4 <= d)%Q -> (file_duration file == d)%Q).
Proof.
  intros Hlen Himg Haudio Hwrite.
  assert (Hne : slide_paths <> []) by (intros ->; discriminate).
  pose proof (generate_video_clip env slide_paths audio_path output_path d
                Hne Himg Haudio Hwrite) as Hrun.
  rewrite Hlen in Hrun.
  set (final := {| clip_images := slide_paths;
                   clip_duration := Some (4 * Z.of_nat 5)%Z;
                   clip_audio := Some {| audio_file := audio_path;
                                         audio_duration := d |} |}) in Hrun.
  destruct (video_file_of final 24) as [file|] eqn:Hfile; [|discriminate].
  exists final, file.
  destruct (twenty_seconds_of_picture final file eq_refl Hfile)
    as (Hfps & Hframes & Hpic & Hfa).
  cbn [final clip_audio option_map audio_duration] in Hfa.
  destruct (file_duration_max file d Hpic Hfa) as [Hshort Hlong].
  split; [exact Hrun|]. split; [reflexivity|]. split; [reflexivity|].
  split; [reflexivity|]. split; [exact Hfile|]. split; [exact Hfps|].
  split; [exact Hframes|]. split; [exact Hpic|]. split; [exact Hfa|].
  split; [exact Hshort | exact Hlong].
Qed.

Lemma generate_video_duration_witness :
  exists (final : VideoClip) (file : VideoFile),
    generate_video Sample.run_a (map slide_path slide_keys)
                   (py "outputs/n.wav") (py "outputs/v.mp4")
    = (map EImageClip (map slide_path slide_keys)
       ++ [EAudioFileClip (py "outputs/n.wav");
           EWriteVideofile (py "outputs/v.mp4") 24 final],
       Ok (py "outputs/v.mp4"))
    /\ clip_duration final = Some 20%Z
    /\ file_frames file = 480%Z
    /\ file_audio file = Some (7 # 2)
    /\ (file_duration file == 20)%Q.
Proof.
  destruct (generate_video_duration Sample.run_a (map slide_path slide_keys)
              (py "outputs/n.wav") (py "outputs/v.mp4") (7 # 2))
    as (final & file & Hrun & Hd & _ & _ & _ & _ & Hframes & _ & Hfa & Hshort & _).
  - reflexivity.
  - repeat constructor.
  - reflexivity.
  - reflexivity.
  - exists final, file. split; [exact Hrun|]. split; [exact Hd|].
    split; [exact Hframes|]. split; [exact Hfa|].
    apply Hshort. vm_compute. discriminate.
Defined.

(** ** The runner *)

(** C7. When the feed answers with no entry, [main] prints its two messages
    around the one feed query and leaves through the early [return]
    ([NoWork]): it raises nothing, and it downloads, opens, generates,
    renders, synthesises and assembles nothing. *)
Theorem main_no_papers (env : Env) :
  feed_entries env arxiv_url = [] ->
  main env
  = ([EPrint (py "📥 Fetching AI papers..."); EFeedParse arxiv_url;
      EPrint (py "No papers found.")],
     Ok NoWork).
Proof.
  intros Hfeed. unfold main, fetch_arxiv_papers, bind, call, print, call_, ret.
  rewrite Hfeed. reflexivity.
Qed.

Lemma main_no_papers_witness :
  main Sample.run_empty_feed
  = ([EPrint (py "📥 Fetching AI papers..."); EFeedParse arxiv_url;
      EPrint (py "No papers found.")],
     Ok NoWork).
Proof. apply (main_no_papers Sample.run_empty_feed). reflexivity. Defined.

(** ** Text extraction *)

Lemma pages_text (doc : list (Exn + str)) :
  (exists texts, doc = map inr texts /\ mapM of_answer doc = ([], Ok texts))
  \/ (exists e, inl e ∈ doc /\ mapM of_answer doc = ([], Raise e)).
Proof.
  induction doc as [|[e|t] doc IH]; simpl.
  - left. exists []. auto.
  - right. exists e. split; [left | reflexivity].
  - destruct IH as [(texts & -> & E) | (e & Hin & E)]; rewrite E.
    + left. exists (t :: texts). auto.
    + right. exists e. split; [right; exact Hin | reflexivity].
Qed.

Lemma map_inr_inj (a b : list str) :
  map inr a = (map inr b : list (Exn + str)) -> a = b.
Proof.
  revert b. induction a as [|x a IH]; intros [|y b]; simpl; try discriminate.
  - reflexivity.
  - intros [= -> H]. f_equal. apply IH, H.
Qed.

Lemma pages_text_ok (texts : list str) :
  mapM of_answer (map inr texts) = ([], Ok texts).
Proof.
  induction texts as [|t texts IH]; simpl; [reflexivity|].
  rewrite IH. reflexivity.
Qed.

Lemma pages_text_raise (doc : list (Exn + str)) (e : Exn) :
  inl e ∈ doc -> exists e', mapM of_answer doc = ([], Raise e').
Proof.
  intros Hin. destruct (pages_text doc) as [(texts & -> & _) | (e' & _ & E)].
  - apply list_elem_of_fmap in Hin as (t & Habs & _). discriminate.
  - eauto.
Qed.

(** C8. [extract_text] returns a string on every input and never raises:
    the empty string when there is no document ([None]), when opening the
    document raises, and when reading one of its pages raises; the pages'
    texts put together, when all of them can be read. *)
Theorem extract_text_never_raises (env : Env) (pdf_path : option str) :
  exists text : str,
    result (extract_text env pdf_path) = Ok text
    /\ (pdf_path = None -> text = [] /\ trace (extract_text env pdf_path) = [])
    /\ (forall path e,
          pdf_path = Some path -> fitz_open env path = inl e -> text = [])
    /\ (forall path doc e,
          pdf_path = Some path -> fitz_open env path = inr doc ->
          inl e ∈ doc -> text = [])
    /\ (forall path texts,
          pdf_path = Some path -> path <> [] ->
          fitz_open env path = inr (map inr texts) -> text = concat texts).
Proof.
  destruct pdf_path as [[|c path]|].
  - exists []. split; [reflexivity|]. split; [discriminate|].
    split; [reflexivity|]. split; [reflexivity|].
    intros path texts [= <-] H. contradiction.
  - unfold extract_text, result, try_except, bind, call.
    destruct (fitz_open env (c :: path)) as [e|doc] eqn:Hopen.
    + exists []. split; [reflexivity|]. split; [discriminate|].
      split; [reflexivity|]. split; [reflexivity|].
      intros path' texts [= <-] _ H. congruence.
    + destruct (pages_text doc) as [(texts & -> & E) | (e & Hin & E)]; rewrite E.
      * exists (concat texts). split; [reflexivity|]. split; [discriminate|].
        split; [intros ? ? [= <-] H; congruence|].
        split.
        -- intros path' doc' e [= <-] H Hin.
           assert (doc' = map inr texts) as -> by congruence.
           apply list_elem_of_fmap in Hin as (t & Habs & _). discriminate.
        -- intros path' texts' [= <-] _ H.
           rewrite Hopen in H. injection H as H.
           apply map_inr_inj in H. subst. reflexivity.
      * exists []. split; [reflexivity|]. split; [discriminate|].
        split; [reflexivity|]. split; [reflexivity|].
        intros path' texts [= <-] _ H.
        assert (doc = map inr texts) as -> by congruence.
        apply list_elem_of_fmap in Hin as (t & Habs & _). discriminate.
  - exists []. split; [reflexivity|]. split; [split; reflexivity|].
    split; [discriminate|]. split; discriminate.
Qed.

Lemma extract_text_never_raises_witness :
  extract_text Sample.run_a None = ([], Ok [])
  /\ result (extract_text Sample.run_404 (Some (py "outputs/A_B_ Test.pdf")))
     = Ok []
  /\ result (extract_text Sample.run_a (Some (py "outputs/A_B_ Test.pdf")))
     = Ok (py "page one page two").
Proof.
  destruct (extract_text_never_raises Sample.run_a None)
    as (t0 & Hr0 & Hnone & _).
  destruct (Hnone eq_refl) as [-> Ht0].
  destruct (extract_text_never_raises Sample.run_404
              (Some (py "outputs/A_B_ Test.pdf")))
    as (t1 & Hr1 & _ & _ & Hpage & _).
  rewrite (Hpage _ _ (LibraryError (py "cannot read page")) eq_refl eq_refl) in Hr1
    by (right; left).
  destruct (extract_text_never_raises Sample.run_a
              (Some (py "outputs/A_B_ Test.pdf")))
    as (t2 & Hr2 & _ & _ & _ & Hall).
  rewrite (Hall _ [py "page one "; py "page two"] eq_refl) in Hr2
    by (reflexivity || discriminate).
  split; [|split; [exact Hr1 | exact Hr2]].
  destruct (extract_text Sample.run_a None) as [t r]. simpl in *.
  congruence.
Defined.

(** ** A failed download *)

Lemma bind_ok {A B} (t : list Event) (a : A) (f : A -> M B) :
  bind (t, Ok a) f = (t ++ trace (f a), result (f a)).
Proof. unfold bind, trace, result. destruct (f a). reflexivity. Qed.

Lemma bind_ret {A B} (a : A) (f : A -> M B) : bind (ret a) f = f a.
Proof. unfold bind, ret. destruct (f a). reflexivity. Qed.

Lemma bind_raise {A B} (t : list Event) (e : Exn) (f : A -> M B) :
  bind (t, Raise e) f = (t, Raise e).
Proof. reflexivity. Qed.

Lemma raise_for_status_error (res : Response) :
  (400 <= status_code res < 600)%Z ->
  exists msg, Requests.raise_for_status res = ([], Raise (HTTPError msg)).
Proof.
  intros H. unfold Requests.raise_for_status, raise.
  destruct ((400 <=? status_code res) && (status_code res <? 500))%Z eqn:E4;
    [eauto|].
  destruct ((500 <=? status_code res) && (status_code res <? 600))%Z eqn:E5;
    [eauto|].
  exfalso. apply andb_false_iff in E4, E5.
  destruct E4 as [E4|E4], E5 as [E5|E5]; lia.
Qed.

Lemma download_pdf_fails (env : Env) (pdf_url filename : str) :
  download_fails env pdf_url ->
  exists msg,
    download_pdf env pdf_url filename
    = ([EGet pdf_url 20; EPrint (py "PDF download failed: " ++ msg)], Ok None).
Proof.
  intros [msg H | msg H | res H Hst]; unfold download_pdf, call.
  - exists msg. rewrite H. reflexivity.
  - exists msg. rewrite H. reflexivity.
  - destruct (raise_for_status_error res Hst) as [msg Hmsg].
    exists msg. rewrite H. cbv beta iota. rewrite bind_ok, Hmsg. reflexivity.
Qed.

Lemma summarize_first_event (env : Env) (text : str) {B} (k : str -> M B) :
  (length text <= MAX_CHARS)%nat ->
  head (trace (bind (summarize_text_ja env text) k))
  = Some (EGenerate (summary_prompt text)).
Proof.
  intros Hlen. unfold summarize_text_ja. rewrite truncated_take.
  rewrite (take_ge text MAX_CHARS Hlen). unfold call.
  destruct (generate_content env (summary_prompt text)) as [e|r].
  - reflexivity.
  - rewrite bind_ok. cbn [trace result fst snd ret app]. rewrite bind_ok.
    reflexivity.
Qed.

(** C9 (as the claim states it, refuted). A response with the status 304,
    which is no success status, is no failure for [download_pdf]: it saves
    the (empty) body, returns the path, and [main] opens the saved file
    instead of going on with no document. *)
Lemma not_modified_is_saved :
  requests_get Cached.run_304 (py "http://arxiv.org/pdf/2401.00001v1.pdf") 20
  = inr {| status_code := 304; reason := py "Not Modified";
           url := py "http://arxiv.org/pdf/2401.00001v1.pdf"; content := [] |}
  /\ ~ (200 <= 304 < 300)%Z
  /\ download_pdf Cached.run_304 (py "http://arxiv.org/pdf/2401.00001v1.pdf")
                  (py "A_B_ Test.pdf")
     = ([EGet (py "http://arxiv.org/pdf/2401.00001v1.pdf") 20;
         EFileWrite (py "outputs/A_B_ Test.pdf") []],
        Ok (Some (py "outputs/A_B_ Test.pdf")))
  /\ trace (main Cached.run_304) !! 5%nat
     = Some (EFitzOpen (py "outputs/A_B_ Test.pdf")).
Proof.
  split; [reflexivity|]. split; [lia|].
  split; vm_compute; reflexivity.
Qed.

(** C9 (amended). When the request for the document fails in transport,
    times out, or comes back with a status from 400 to 599 (those
    [raise_for_status] raises for), [download_pdf] raises nothing: it prints
    the failure, writes no file and returns [None]. [main] then goes on:
    [extract_text] opens nothing and gives the empty text, and the run
    continues from the summary of the empty text as it would from any other
    text. *)
Theorem download_failure_is_soft (env : Env) :
  (forall pdf_url filename,
     download_fails env pdf_url ->
     exists msg,
       download_pdf env pdf_url filename
       = ([EGet pdf_url 20; EPrint (py "PDF download failed: " ++ msg)],
          Ok None))
  /\ (forall entry rest,
        feed_entries env arxiv_url = entry :: rest ->
        download_fails env (pdf_url_of entry) ->
        let rest_of_run := main_from_text env (entry_title entry) [] in
        exists msg,
          main env
          = ([EPrint (py "📥 Fetching AI papers..."); EFeedParse arxiv_url;
              EPrint ([Chr.LF] ++ py "▶ Processing: " ++ entry_title entry);
              EGet (pdf_url_of entry) 20;
              EPrint (py "PDF download failed: " ++ msg)]
             ++ trace rest_of_run,
             result rest_of_run)
          /\ head (trace rest_of_run) = Some (EGenerate (summary_prompt []))).
Proof.
  split; [intros; apply download_pdf_fails; assumption|].
  intros entry rest Hfeed Hfail rest_of_run.
  destruct (download_pdf_fails env (pdf_url_of entry)
              (safe_filename (entry_title entry) ++ py ".pdf") Hfail)
    as [msg Hdl].
  exists msg. split.
  - unfold main, fetch_arxiv_papers, print, call, call_.
    rewrite !bind_ok. cbn [trace result fst snd]. rewrite Hfeed.
    rewrite bind_ok, Hdl, bind_ok. cbn [extract_text].
    rewrite bind_ret. cbn [trace result fst snd app]. reflexivity.
  - apply summarize_first_event. simpl. unfold MAX_CHARS. lia.
Qed.

Lemma download_failure_is_soft_witness :
  exists msg,
    download_pdf Sample.run_404 (py "http://arxiv.org/pdf/2401.00001v1.pdf")
                 (py "A_B_ Test.pdf")
    = ([EGet (py "http://arxiv.org/pdf/2401.00001v1.pdf") 20;
        EPrint (py "PDF download failed: " ++ msg)], Ok None)
    /\ result (main Sample.run_404) = Ok Done
    /\ trace (main Sample.run_404) !! 5%nat = Some (EGenerate (summary_prompt [])).
Proof.
  destruct (download_failure_is_soft Sample.run_404) as [Hdl Hmain].
  assert (Hfail : download_fails Sample.run_404
                    (py "http://arxiv.org/pdf/2401.00001v1.pdf")).
  { eapply fails_status; [reflexivity|]. simpl. lia. }
  destruct (Hdl _ (py "A_B_ Test.pdf") Hfail) as [msg Hmsg].
  exists msg. split; [exact Hmsg|].
  destruct (Hmain _ [] eq_refl Hfail) as (msg' & -> & Hhead).
  split; [vm_compute; reflexivity|].
  cbn [trace fst]. 
  destruct (trace (main_from_text Sample.run_404 _ [])) as [|ev t];
    [discriminate|].
  injection Hhead as ->. reflexivity.
Defined.

(** ** The files of a run *)

Lemma written_paths_app (t1 t2 : list Event) :
  written_paths (t1 ++ t2) = written_paths t1 ++ written_paths t2.
Proof. unfold written_paths. apply flat_map_app. Qed.

Lemma bind_inv {A B} (m : M A) (f : A -> M B) (t : list Event) (b : B) :
  bind m f = (t, Ok b) ->
  exists t1 a t2, m = (t1, Ok a) /\ f a = (t2, Ok b) /\ t = t1 ++ t2.
Proof.
  destruct m as [t1 [a|e]]; simpl; [|discriminate].
  destruct (f a) as [t2 r] eqn:E. intros [= <- ->]. eauto 6.
Qed.

Lemma call_inv {A} (ev : Event) (answer : Exn + A) (t : list Event) (a : A) :
  call ev answer = (t, Ok a) -> t = [ev] /\ answer = inr a.
Proof. unfold call. destruct answer; intros [= <- ?]; subst; auto. Qed.

Lemma call__inv (ev : Event) (answer : option Exn) (t : list Event) (u : unit) :
  call_ ev answer = (t, Ok u) -> t = [ev].
Proof. unfold call_. intros [= <- _]. reflexivity. Qed.

Tactic Notation "bind_inv" hyp(H) "as" ident(a) ident(H1) ident(H2) :=
  let t1 := fresh "t" in
  let t2 := fresh "t" in
  apply bind_inv in H as (t1 & a & t2 & H1 & H2 & ->).

Ltac inv_ret := unfold ret, raise in *; simplify_eq.

Lemma join_save_dir (f : str) :
  Str.starts_with [Chr.slash] f = false ->
  Path.join SAVE_DIR f = py "outputs/" ++ f.
Proof. intros H. unfold Path.join. rewrite H. reflexivity. Qed.

Lemma pdf_path_of_title (raw_title : str) :
  pdf_path_of raw_title = py "outputs/" ++ safe_filename raw_title ++ py ".pdf".
Proof.
  apply join_save_dir.
  pose proof (safe_filename_clean raw_title) as Hc.
  destruct (safe_filename raw_title) as [|c r]; [reflexivity|].
  inversion Hc as [|? ? Hu _]; subst. cbn [app Str.starts_with].
  destruct (Chr.slash =? c) eqn:E; [|reflexivity].
  apply N.eqb_eq in E. subst c. discriminate.
Qed.

Lemma raise_for_status_trace (res : Response) :
  trace (Requests.raise_for_status res) = [].
Proof.
  unfold Requests.raise_for_status.
  repeat destruct (_ && _)%bool; reflexivity.
Qed.

Lemma download_pdf_written (env : Env) (pdf_url filename : str)
      (t : list Event) (r : option str) :
  download_pdf env pdf_url filename = (t, Ok r) ->
  (r = None /\ written_paths t = [])
  \/ (r = Some (Path.join SAVE_DIR filename)
      /\ written_paths t = [Path.join SAVE_DIR filename]).
Proof.
  unfold download_pdf. intros H. bind_inv H as got Htry Hrest.
  assert (Htr : written_paths t0 = []).
  { unfold try_except, call in Htry.
    destruct (requests_get env pdf_url 20) as [e|res].
    - simpl in Htry. inv_ret. reflexivity.
    - rewrite bind_ok in Htry. cbn [trace result fst snd] in Htry.
      pose proof (raise_for_status_trace res) as Hrs.
      destruct (Requests.raise_for_status res) as [trs [u|e]];
        cbn [trace fst] in Hrs; subst trs; simpl in Htry; inv_ret; reflexivity. }
  destruct got as [res|].
  - right. bind_inv Hrest as u Hw Hr. inv_ret.
    apply call__inv in Hw as ->.
    split; [reflexivity|]. rewrite !written_paths_app, Htr. reflexivity.
  - left. inv_ret. split; [reflexivity|].
    rewrite written_paths_app, Htr. reflexivity.
Qed.

Lemma extract_text_written (env : Env) (pdf_path : option str) :
  written_paths (trace (extract_text env pdf_path)) = [].
Proof.
  destruct pdf_path as [[|c path]|]; try reflexivity.
  unfold extract_text, try_except, bind, call.
  destruct (fitz_open env (c :: path)) as [e|doc]; [reflexivity|].
  destruct (pages_text doc) as [(texts & _ & E) | (e & _ & E)]; rewrite E;
    reflexivity.
Qed.

Lemma summarize_text_ja_written (env : Env) (text : str) :
  written_paths (trace (summarize_text_ja env text)) = [].
Proof.
  unfold summarize_text_ja, bind, call.
  destruct (generate_content env _); reflexivity.
Qed.

Lemma build_slide_structure_written (env : Env) (title summary : str) :
  written_paths (trace (build_slide_structure env title summary)) = [].
Proof.
  unfold build_slide_structure, bind, call.
  destruct (generate_content env _); reflexivity.
Qed.

Lemma slides_written (env : Env) (structure : gmap (list N) (list N))
      (keys : list str) (t : list Event) (paths : list str) :
  mapM (fun key =>
          let msg := key ++ [Chr.LF; Chr.LF] ++ default [] (structure !! key) in
          let path := slide_path key in
          exec create_slide_image env msg path;
          ret path) keys = (t, Ok paths) ->
  paths = map slide_path keys /\ written_paths t = map slide_path keys.
Proof.
  revert t paths. induction keys as [|key keys IH]; intros t paths H.
  - cbn [mapM] in H. inv_ret. split; reflexivity.
  - cbn [mapM] in H. bind_inv H as p Hone Hrest.
    bind_inv Hrest as ps Hps Hr.
    destruct (IH _ _ Hps) as [-> Hw].
    cbv zeta in Hone. bind_inv Hone as f Himg Hp.
    unfold create_slide_image in Himg. bind_inv Himg as u Hsave Hf.
    apply call__inv in Hsave as ->. inv_ret.
    split; [reflexivity|].
    rewrite !written_paths_app, Hw.
    cbn [written_paths flat_map written_path app map].
    rewrite ?app_nil_r. reflexivity.
Qed.

Lemma voicevox_tts_written (env : Env) (text filename : str) (speed : Q)
      (t : list Event) (path : str) :
  voicevox_tts env text filename speed = (t, Ok path) ->
  path = Path.join SAVE_DIR filename /\ written_paths t = [path].
Proof.
  unfold voicevox_tts. intros H. bind_inv H as speaker Hid Hrest.
  unfold get_speaker_id in Hid. bind_inv Hid as data Hdata Hfind.
  apply call_inv in Hdata as [-> _].
  destruct speaker as [speaker|]; [|discriminate].
  bind_inv Hrest as query Hq Hrest'. apply call_inv in Hq as [-> _].
  cbv zeta in Hrest'. bind_inv Hrest' as audio Ha Hw.
  apply call_inv in Ha as [-> _].
  bind_inv Hw as u Hwrite Hr. apply call__inv in Hwrite as ->.
  inv_ret. split; reflexivity.
Qed.

Lemma image_clips_written (env : Env) (slide_paths : list str) :
  written_paths
    (trace (mapM (fun p => do c <- ImageClip env p;
                           ret (Moviepy.set_duration 4 c)) slide_paths)) = [].
Proof.
  induction slide_paths as [|p ps IH]; [reflexivity|].
  cbn [mapM]. unfold ImageClip at 1. unfold call_.
  destruct (image_clip env p); [reflexivity|].
  rewrite !bind_ok. cbn [trace result fst snd ret app].
  rewrite bind_ok. cbn [trace fst app].
  destruct (mapM _ ps) as [t [cs|e]]; simpl in *; rewrite ?app_nil_r; exact IH.
Qed.

Lemma concatenate_trace (clips : list VideoClip) :
  trace (Moviepy.concatenate_videoclips clips) = [].
Proof.
  unfold Moviepy.concatenate_videoclips.
  destruct clips as [|c cs]; [reflexivity|].
  destruct (Moviepy.total_duration _); reflexivity.
Qed.

Lemma generate_video_written (env : Env) (slide_paths : list str)
      (audio_path output_path : str) (t : list Event) (r : str) :
  generate_video env slide_paths audio_path output_path = (t, Ok r) ->
  written_paths t = [output_path].
Proof.
  unfold generate_video. intros H. bind_inv H as clips Hclips Hrest.
  pose proof (image_clips_written env slide_paths) as Hw.
  rewrite Hclips in Hw. cbn [trace fst] in Hw.
  bind_inv Hrest as video Hcat Hrest'.
  pose proof (concatenate_trace clips) as Hc.
  rewrite Hcat in Hc. cbn [trace fst] in Hc. subst.
  bind_inv Hrest' as audio Haudio Hwrite.
  unfold AudioFileClip in Haudio. bind_inv Haudio as d Hd Hclip.
  apply call_inv in Hd as [-> _].
  cbv zeta in Hwrite. bind_inv Hwrite as u Hfile Hr.
  apply call__inv in Hfile as ->. inv_ret.
  rewrite !written_paths_app, Hw. reflexivity.
Qed.

Lemma dated_path_inj (pre suf d1 d2 : str) :
  py "outputs/" ++ pre ++ d1 ++ suf = py "outputs/" ++ pre ++ d2 ++ suf ->
  d1 = d2.
Proof.
  intros H. apply app_inv_head, app_inv_head, app_inv_tail in H. exact H.
Qed.

Lemma narration_path_dated (today : str) :
  narration_path today = py "outputs/" ++ py "narration_" ++ today ++ py ".wav".
Proof. reflexivity. Qed.

Lemma video_path_dated (today : str) :
  video_path today = py "outputs/" ++ py "paper_video_" ++ today ++ py ".mp4".
Proof. reflexivity. Qed.

Lemma main_written (env : Env) (t : list Event) :
  main env = (t, Ok Done) ->
  exists entry rest,
    feed_entries env arxiv_url = entry :: rest
    /\ (written_paths t
        = map slide_path slide_keys
          ++ [narration_path (utcnow_Ymd env); video_path (utcnow_Ymd env)]
        \/ written_paths t
           = pdf_path_of (entry_title entry)
             :: map slide_path slide_keys
             ++ [narration_path (utcnow_Ymd env); video_path (utcnow_Ymd env)]).
Proof.
  unfold main. intros H.
  bind_inv H as u Hprint Hrest. apply call__inv in Hprint as ->.
  bind_inv Hrest as papers Hfeed Hrest'.
  apply call_inv in Hfeed as [-> Hfeed]. injection Hfeed as Hfeed.
  destruct papers as [|entry rest].
  { bind_inv Hrest' as u' Hp Hr. inv_ret. }
  exists entry, rest. split; [exact Hfeed|].
  cbv zeta in Hrest'.
  bind_inv Hrest' as u' Hp Hrun. apply call__inv in Hp as ->.
  bind_inv Hrun as pdf_path Hdl Hrun'.
  bind_inv Hrun' as text Htext Hrun.
  pose proof (extract_text_written env pdf_path) as Hx.
  rewrite Htext in Hx. cbn [trace fst] in Hx.
  unfold main_from_text in Hrun.
  bind_inv Hrun as summary Hsum Hrun'.
  pose proof (summarize_text_ja_written env text) as Hs.
  rewrite Hsum in Hs. cbn [trace fst] in Hs.
  bind_inv Hrun' as structure Hstruct Hrun.
  pose proof (build_slide_structure_written env (entry_title entry) summary) as Hb.
  rewrite Hstruct in Hb. cbn [trace fst] in Hb.
  bind_inv Hrun as slide_files Hslides Hrun'.
  apply slides_written in Hslides as [-> Hsl].
  cbv zeta in Hrun'.
  bind_inv Hrun' as audio_path Htts Hrun.
  apply voicevox_tts_written in Htts as [-> Hn].
  bind_inv Hrun as out Hvideo Hrun'.
  apply generate_video_written in Hvideo as Hv.
  bind_inv Hrun' as u'' Hp Hr. apply call__inv in Hp as ->. inv_ret.
  rewrite !written_paths_app, Hx, Hs, Hb, Hsl, Hn, Hv.
  cbn [written_paths flat_map written_path app]. rewrite ?app_nil_r.
  apply download_pdf_written in Hdl as [[_ ->] | [_ ->]]; [left | right];
    reflexivity.
Qed.

(** C5 (as the claim states it, refuted). Two runs on different days about
    different papers both write the slide of the title to
    [outputs/TITLE.png], and the other four slides to common paths as
    well. *)
Lemma runs_share_slide_paths :
  utcnow_Ymd Sample.run_a <> utcnow_Ymd Sample.run_b
  /\ feed_entries Sample.run_a arxiv_url <> feed_entries Sample.run_b arxiv_url
  /\ result (main Sample.run_a) = Ok Done
  /\ result (main Sample.run_b) = Ok Done
  /\ ~ (forall path,
          path ∈ written_paths (trace (main Sample.run_a)) ->
          path ∉ written_paths (trace (main Sample.run_b))).
Proof.
  split; [vm_compute; discriminate|].
  split; [vm_compute; discriminate|].
  split; [vm_compute; reflexivity|].
  split; [vm_compute; reflexivity|].
  intros H. apply (H (py "outputs/TITLE.png")).
  - apply list_elem_of_In. vm_compute. tauto.
  - apply list_elem_of_In. vm_compute. tauto.
Qed.

(** C5 (amended). A run that completes writes the five slide images, the
    narration and the video, after the PDF if the download succeeded, and
    nothing else. The slide paths are the same five in every run,
    [outputs/TITLE.png] to [outputs/CONCLUSION.png]; the PDF goes to
    [outputs/<sanitised title>.pdf]; the narration and the video go to
    [outputs/narration_<date>.wav] and [outputs/paper_video_<date>.mp4],
    which differ between two runs whose UTC dates differ. *)
Theorem run_written_paths :
  (forall env,
     result (main env) = Ok Done ->
     exists entry rest,
       feed_entries env arxiv_url = entry :: rest
       /\ (written_paths (trace (main env))
           = map slide_path slide_keys
             ++ [narration_path (utcnow_Ymd env); video_path (utcnow_Ymd env)]
           \/ written_paths (trace (main env))
              = pdf_path_of (entry_title entry)
                :: map slide_path slide_keys
                ++ [narration_path (utcnow_Ymd env);
                    video_path (utcnow_Ymd env)]))
  /\ map slide_path slide_keys
     = [py "outputs/TITLE.png"; py "outputs/PURPOSE.png";
        py "outputs/METHOD.png"; py "outputs/RESULT.png";
        py "outputs/CONCLUSION.png"]
  /\ (forall raw_title,
        pdf_path_of raw_title
        = py "outputs/" ++ safe_filename raw_title ++ py ".pdf")
  /\ (forall today,
        narration_path today = py "outputs/narration_" ++ today ++ py ".wav"
        /\ video_path today = py "outputs/paper_video_" ++ today ++ py ".mp4")
  /\ (forall day1 day2,
        day1 <> day2 ->
        narration_path day1 <> narration_path day2
        /\ video_path day1 <> video_path day2).
Proof.
  split.
  { intros env H. apply main_written.
    destruct (main env) as [t r]. simpl in H. subst r. reflexivity. }
  split; [vm_compute; reflexivity|].
  split; [exact pdf_path_of_title|].
  split; [intros today; split; reflexivity|].
  intros day1 day2 Hne. split; intros H; apply Hne.
  - rewrite !narration_path_dated in H. exact (dated_path_inj _ _ _ _ H).
  - rewrite !video_path_dated in H. exact (dated_path_inj _ _ _ _ H).
Qed.

Lemma run_written_paths_witness :
  written_paths (trace (main Sample.run_a))
  = [py "outputs/A_B_ Test.pdf"; py "outputs/TITLE.png";
     py "outputs/PURPOSE.png"; py "outputs/METHOD.png";
     py "outputs/RESULT.png"; py "outputs/CONCLUSION.png";
     py "outputs/narration_20240101.wav";
     py "outputs/paper_video_20240101.mp4"]
  /\ narration_path (py "20240101") <> narration_path (py "20240102").
Proof.
  destruct run_written_paths as (Hrun & _ & _ & _ & Hdays).
  destruct (Hrun Sample.run_a) as (entry & rest & Hfeed & Hw).
  { vm_compute. reflexivity. }
  split.
  - vm_compute. reflexivity.
  - apply Hdays. vm_compute. discriminate.
Defined.

(* ===================================================================== *)
(** * Further properties of the stages *)
(* ===================================================================== *)

(** ** File names, continued *)

Lemma has_run_of_lookup (s : str) :
  (forall i, s !! i = Some Chr.underscore -> s !! S i <> Some Chr.underscore) ->
  has_run s = false.
Proof.
  induction s as [|a t IH]; intros H; [reflexivity|].
  cbn [has_run]. rewrite IH by (intros i; apply (H (S i))).
  rewrite orb_false_r. destruct (is_underscore a) eqn:Ha; [|reflexivity].
  apply is_underscore_spec in Ha. subst a.
  destruct t as [|b t']; [reflexivity|]. simpl.
  destruct (is_underscore b) eqn:Hb; [|reflexivity].
  apply is_underscore_spec in Hb. subst b.
  exfalso. apply (H 0%nat); reflexivity.
Qed.

Lemma not_underscore_iff (o : option N) :
  o <> Some Chr.underscore <-> (forall c, o = Some c -> is_underscore c = false).
Proof.
  split.
  - intros H c ->. destruct (is_underscore c) eqn:E; [|reflexivity].
    apply is_underscore_spec in E. congruence.
  - intros H E. specialize (H _ E). discriminate.
Qed.

(** X1. The names [safe_filename] leaves unchanged are exactly those with no
    character of the class, no two neighbouring underscores, and no
    underscore at either end. *)
Theorem safe_filename_fixed_points (s : str) :
  safe_filename s = s
  <-> clean s /\ has_run s = false
      /\ head s <> Some Chr.underscore /\ last s <> Some Chr.underscore.
Proof.
  split.
  - intros <-. split; [apply safe_filename_clean|].
    split; [apply safe_filename_no_run|].
    split; apply not_underscore_iff; intros c.
    + apply safe_filename_head.
    + apply safe_filename_last.
  - intros (Hc & Hr & Hh & Hl).
    apply safe_filename_fixed; try assumption; apply not_underscore_iff;
      assumption.
Qed.

Lemma safe_filename_fixed_points_witness :
  safe_filename (py "A_B_ Test") = py "A_B_ Test"
  /\ ~ clean (py "A/B").
Proof.
  split.
  - apply (safe_filename_fixed_points (py "A_B_ Test")).
    split; [repeat constructor|].
    split; [reflexivity|]. split; discriminate.
  - intros Hc.
    assert (H : safe_filename (py "A/B") = py "A/B").
    { apply (safe_filename_fixed_points (py "A/B")).
      split; [exact Hc|]. split; [reflexivity|]. split; discriminate. }
    vm_compute in H. discriminate.
Defined.

Lemma ordinary_sub_class (s : str) :
  List.filter ordinary (Re.sub_class is_unsafe [Chr.underscore] s)
  = List.filter ordinary s.
Proof.
  unfold Re.sub_class. induction s as [|c t IH]; [reflexivity|].
  cbn [flat_map]. rewrite List.filter_app, IH. cbn [List.filter].
  destruct (is_unsafe c) eqn:Hc.
  - assert (Ho : ordinary c = false) by (unfold ordinary; rewrite Hc; reflexivity).
    rewrite Ho. reflexivity.
  - cbn [List.filter]. destruct (ordinary c); reflexivity.
Qed.

Lemma ordinary_sub_runs_from (b : bool) (s : str) :
  List.filter ordinary (Re.sub_runs_from is_underscore [Chr.underscore] b s)
  = List.filter ordinary s.
Proof.
  revert b. induction s as [|c t IH]; intros b; [reflexivity|].
  cbn [Re.sub_runs_from]. destruct (is_underscore c) eqn:Hc.
  - assert (Ho : ordinary c = false)
      by (unfold ordinary; rewrite Hc; apply andb_false_r).
    cbn [List.filter]. rewrite Ho.
    destruct b; [apply IH|]. cbn [app List.filter].
    replace (ordinary Chr.underscore) with false by reflexivity. apply IH.
  - cbn [List.filter]. rewrite IH. reflexivity.
Qed.

Lemma ordinary_underscores (w : str) :
  forallb (fun c => Str.mem c [Chr.underscore]) w = true ->
  List.filter ordinary w = [].
Proof.
  induction w as [|c w IH]; [reflexivity|]. cbn [forallb List.filter].
  rewrite andb_true_iff, mem_underscore. intros [Hc Hw].
  unfold ordinary. rewrite Hc, andb_false_r. apply IH, Hw.
Qed.

Lemma ordinary_safe_filename (s : str) :
  List.filter ordinary (safe_filename s) = List.filter ordinary s.
Proof.
  destruct (strip_by_parts (fun c => Str.mem c [Chr.underscore]) (collapsed s))
    as (w1 & w2 & E & H1 & H2).
  change (Str.strip_by _ (collapsed s)) with (safe_filename s) in E.
  transitivity (List.filter ordinary (collapsed s)).
  - rewrite E, !List.filter_app.
    rewrite (ordinary_underscores w1 H1), (ordinary_underscores w2 H2).
    rewrite app_nil_r. reflexivity.
  - unfold collapsed, Re.sub_runs. rewrite ordinary_sub_runs_from.
    apply ordinary_sub_class.
Qed.

Lemma sub_class_length (s : str) :
  length (Re.sub_class is_unsafe [Chr.underscore] s) = length s.
Proof.
  unfold Re.sub_class. induction s as [|c t IH]; [reflexivity|].
  cbn [flat_map]. rewrite length_app, IH. destruct (is_unsafe c); reflexivity.
Qed.

Lemma sub_runs_from_length (b : bool) (s : str) :
  (length (Re.sub_runs_from is_underscore [Chr.underscore] b s) <= length s)%nat.
Proof.
  revert b. induction s as [|c t IH]; intros b; [reflexivity|].
  cbn [Re.sub_runs_from]. destruct (is_underscore c).
  - destruct b; cbn [app length]; [specialize (IH true) | specialize (IH true)];
      lia.
  - cbn [length]. specialize (IH false). lia.
Qed.

Lemma safe_filename_length (s : str) :
  (length (safe_filename s) <= length s)%nat.
Proof.
  destruct (safe_filename_infix s) as (w1 & w2 & E).
  apply (f_equal length) in E. rewrite !length_app in E.
  pose proof (sub_runs_from_length false
                (Re.sub_class is_unsafe [Chr.underscore] s)) as H.
  rewrite sub_class_length in H. unfold collapsed, Re.sub_runs in E. lia.
Qed.

(** X2. [safe_filename] neither drops nor reorders the characters that are
    outside the class and no underscores: they are the same sequence before
    and after; and the name never gets longer. *)
Theorem safe_filename_keeps_ordinary (s : str) :
  List.filter ordinary (safe_filename s) = List.filter ordinary s
  /\ (length (safe_filename s) <= length s)%nat.
Proof. split; [apply ordinary_safe_filename | apply safe_filename_length]. Qed.

(** X3. The sanitised name is empty exactly when the title has no character
    besides those of the class and underscores (the empty title included);
    the PDF of such a paper is saved as [outputs/.pdf]. *)
Theorem safe_filename_empty_iff (s : str) :
  (safe_filename s = [] <-> List.filter ordinary s = [])
  /\ (List.filter ordinary s = [] -> pdf_path_of s = py "outputs/.pdf").
Proof.
  assert (Hiff : safe_filename s = [] <-> List.filter ordinary s = []).
  { rewrite <- ordinary_safe_filename. split; [intros ->; reflexivity|].
    intros Hf. pose proof (safe_filename_clean s) as Hc.
    pose proof (safe_filename_head s) as Hh.
    destruct (safe_filename s) as [|c r]; [reflexivity|]. exfalso.
    inversion Hc as [|? ? Hu _]; subst.
    specialize (Hh c eq_refl). cbn [List.filter] in Hf.
    unfold ordinary in Hf. rewrite Hu, Hh in Hf. discriminate. }
  split; [exact Hiff|].
  intros Hf. apply Hiff in Hf. rewrite pdf_path_of_title, Hf. reflexivity.
Qed.

Lemma safe_filename_empty_iff_witness :
  safe_filename (py "__??:_") = [] /\ pdf_path_of (py "__??:_") = py "outputs/.pdf".
Proof.
  destruct (safe_filename_empty_iff (py "__??:_")) as [[_ H] Hp].
  split; [apply H; reflexivity | apply Hp; reflexivity].
Defined.

(** X4. Whatever the title, the PDF is saved directly under [outputs/]: the
    file name after that prefix ends in [.pdf] and holds neither a slash nor
    a backslash, so a title cannot direct the write to another directory. *)
Theorem pdf_path_stays_in_save_dir (raw_title : str) :
  exists name : str,
    pdf_path_of raw_title = py "outputs/" ++ name
    /\ name = safe_filename raw_title ++ py ".pdf"
    /\ (Chr.slash ∉ name) /\ (Chr.backslash ∉ name).
Proof.
  exists (safe_filename raw_title ++ py ".pdf").
  split; [apply pdf_path_of_title|]. split; [reflexivity|].
  pose proof (safe_filename_clean raw_title) as Hc. unfold clean in Hc.
  rewrite Forall_forall in Hc.
  split; intros Hin; apply elem_of_app in Hin as [Hin|Hin].
  - specialize (Hc _ Hin). discriminate.
  - apply list_elem_of_In in Hin. vm_compute in Hin. intuition discriminate.
  - specialize (Hc _ Hin). discriminate.
  - apply list_elem_of_In in Hin. vm_compute in Hin. intuition discriminate.
Qed.

(** ** Download, continued *)

Lemma raise_for_status_ok (res : Response) :
  ~ (400 <= status_code res < 600)%Z ->
  Requests.raise_for_status res = ([], Ok tt).
Proof.
  intros H. unfold Requests.raise_for_status, ret.
  destruct ((400 <=? status_code res) && (status_code res <? 500))%Z eqn:E4.
  { apply andb_true_iff in E4 as [? ?]. lia. }
  destruct ((500 <=? status_code res) && (status_code res <? 600))%Z eqn:E5.
  { apply andb_true_iff in E5 as [? ?]. lia. }
  reflexivity.
Qed.

Lemma download_pdf_fetched (env : Env) (pdf_url filename : str) (res : Response) :
  requests_get env pdf_url 20 = inr res ->
  ~ (400 <= status_code res < 600)%Z ->
  download_pdf env pdf_url filename
  = ([EGet pdf_url 20;
      EFileWrite (Path.join SAVE_DIR filename) (content res)],
     match open_wb env (Path.join SAVE_DIR filename) (content res) with
     | Some e => Raise e
     | None => Ok (Some (Path.join SAVE_DIR filename))
     end).
Proof.
  intros Hget Hst. unfold download_pdf, call. rewrite Hget. cbv beta iota.
  rewrite bind_ok, (raise_for_status_ok res Hst).
  unfold write_file, call_.
  cbn [bind ret trace result fst snd app try_except].
  destruct (open_wb env (Path.join SAVE_DIR filename) (content res));
    reflexivity.
Qed.

(** X5. When the request comes back with any status outside 400 to 599 (a
    200, but a 204 or a 304 as well) and the file can be written,
    [download_pdf] makes that one request, writes the body of the response
    unchanged to [outputs/<filename>] and returns that path. *)
Theorem download_pdf_saves_body (env : Env) (pdf_url filename : str)
        (res : Response) :
  requests_get env pdf_url 20 = inr res ->
  ~ (400 <= status_code res < 600)%Z ->
  open_wb env (Path.join SAVE_DIR filename) (content res) = None ->
  download_pdf env pdf_url filename
  = ([EGet pdf_url 20;
      EFileWrite (Path.join SAVE_DIR filename) (content res)],
     Ok (Some (Path.join SAVE_DIR filename))).
Proof.
  intros Hget Hst Hw.
  rewrite (download_pdf_fetched env pdf_url filename res Hget Hst), Hw.
  reflexivity.
Qed.

Lemma download_pdf_saves_body_witness :
  download_pdf Sample.run_a (py "http://arxiv.org/pdf/2401.00001v1.pdf")
               (py "A_B_ Test.pdf")
  = ([EGet (py "http://arxiv.org/pdf/2401.00001v1.pdf") 20;
      EFileWrite (py "outputs/A_B_ Test.pdf")
                 [Byte.x25; Byte.x50; Byte.x44; Byte.x46]],
     Ok (Some (py "outputs/A_B_ Test.pdf"))).
Proof.
  apply (download_pdf_saves_body Sample.run_a
           (py "http://arxiv.org/pdf/2401.00001v1.pdf") (py "A_B_ Test.pdf")
           {| status_code := 200; reason := py "OK";
              url := py "http://arxiv.org/pdf/2401.00001v1.pdf";
              content := [Byte.x25; Byte.x50; Byte.x44; Byte.x46] |}).
  - reflexivity.
  - simpl. lia.
  - reflexivity.
Defined.

(** X6. The only exception that leaves [download_pdf] is the one of the file
    write, which is outside the [try]: the function raises [e] exactly when
    the request came back with a status outside 400 to 599 and writing the
    body to [outputs/<filename>] raised [e]. *)
Theorem download_pdf_raises_iff (env : Env) (pdf_url filename : str) (e : Exn) :
  result (download_pdf env pdf_url filename) = Raise e
  <-> exists res,
        requests_get env pdf_url 20 = inr res
        /\ ~ (400 <= status_code res < 600)%Z
        /\ open_wb env (Path.join SAVE_DIR filename) (content res) = Some e.
Proof.
  split.
  - intros H.
    destruct (requests_get env pdf_url 20) as [e'|res] eqn:Hget.
    + exfalso. unfold download_pdf, call in H. rewrite Hget in H.
      destruct e'; simpl in H; discriminate.
    + destruct (Z_le_dec 400 (status_code res)) as [Hlo|Hlo];
        [destruct (Z_lt_dec (status_code res) 600) as [Hhi|Hhi]|].
      * exfalso.
        assert (Hf : download_fails env pdf_url)
          by (eapply fails_status; [exact Hget | lia]).
        destruct (download_pdf_fails env pdf_url filename Hf) as [msg Hd].
        rewrite Hd in H. discriminate.
      * exists res. split; [reflexivity|]. split; [lia|].
        rewrite (download_pdf_fetched env pdf_url filename res Hget) in H by lia.
        cbn [result snd] in H.
        destruct (open_wb env _ _); congruence.
      * exists res. split; [reflexivity|]. split; [lia|].
        rewrite (download_pdf_fetched env pdf_url filename res Hget) in H by lia.
        cbn [result snd] in H.
        destruct (open_wb env _ _); congruence.
  - intros (res & Hget & Hst & Hw).
    rewrite (download_pdf_fetched env pdf_url filename res Hget Hst), Hw.
    reflexivity.
Qed.

Lemma download_pdf_raises_iff_witness :
  result (download_pdf Faulty.run_disk_full
            (py "http://arxiv.org/pdf/2401.00001v1.pdf") (py "A_B_ Test.pdf"))
  = Raise (LibraryError (py "No space left on device")).
Proof.
  apply (download_pdf_raises_iff Faulty.run_disk_full).
  eexists. split; [reflexivity|]. split; [simpl; lia | reflexivity].
Defined.

(** ** Text extraction, continued *)

(** X7. [extract_text] opens the document once when it is given a
    non-empty path, whether the parse then succeeds or fails, and touches
    nothing when it is given [None] or the empty path, for which it returns
    the empty text; it never writes a file. *)
Theorem extract_text_opens_once (env : Env) (pdf_path : option str) :
  trace (extract_text env pdf_path)
  = match pdf_path with
    | Some (c :: path) => [EFitzOpen (c :: path)]
    | _ => []
    end
  /\ (pdf_path = Some [] -> result (extract_text env pdf_path) = Ok []).
Proof.
  split; [|intros ->; reflexivity].
  destruct pdf_path as [[|c path]|]; try reflexivity.
  unfold extract_text, try_except, bind, call.
  destruct (fitz_open env (c :: path)) as [e|doc]; [reflexivity|].
  destruct (pages_text doc) as [(texts & _ & E) | (e & _ & E)]; rewrite E;
    reflexivity.
Qed.

Lemma extract_text_opens_once_witness :
  extract_text Sample.run_a (Some []) = ([], Ok []).
Proof.
  destruct (extract_text_opens_once Sample.run_a (Some [])) as [Ht Hr].
  specialize (Hr eq_refl).
  destruct (extract_text Sample.run_a (Some [])) as [t r].
  cbn [trace result fst snd] in Ht, Hr. subst. reflexivity.
Defined.

(** ** The summary, continued *)

(** X8. What lies beyond the first 5000 characters of the text has no
    influence on [summarize_text_ja]: two texts that agree on their first
    5000 characters lead to the same call and the same result. *)
Theorem summarize_text_ja_ignores_tail (env : Env) (text1 text2 : str) :
  take 5000 text1 = take 5000 text2 ->
  summarize_text_ja env text1 = summarize_text_ja env text2.
Proof.
  intros H. unfold summarize_text_ja. rewrite !truncated_take.
  change MAX_CHARS with 5000%nat. rewrite H. reflexivity.
Qed.

Lemma summarize_text_ja_ignores_tail_witness :
  summarize_text_ja Sample.run_b (repeat 97 5000 ++ py "tail one")
  = summarize_text_ja Sample.run_b (repeat 97 5000 ++ py "another tail").
Proof.
  apply summarize_text_ja_ignores_tail.
  rewrite !take_app_length' by (symmetry; apply repeat_length). reflexivity.
Defined.

(** X9. The prompt [summarize_text_ja] submits is never longer than 5035
    characters (the 35 of the fixed instruction and line feeds, and at most
    5000 of the text); and when the service raises, the function raises the
    same exception after that single call, without trying again. *)
Theorem summarize_text_ja_prompt_bound (env : Env) (text : str) :
  exists prompt : str,
    trace (summarize_text_ja env text) = [EGenerate prompt]
    /\ (length prompt <= 35 + 5000)%nat
    /\ length prompt = (35 + Nat.min 5000 (length text))%nat
    /\ (forall e, generate_content env prompt = inl e ->
                  result (summarize_text_ja env text) = Raise e).
Proof.
  exists (summary_prompt (take 5000 text)).
  unfold summarize_text_ja. rewrite truncated_take.
  change MAX_CHARS with 5000%nat.
  assert (Hlen : length (summary_prompt (take 5000 text))
                 = (35 + Nat.min 5000 (length text))%nat).
  { unfold summary_prompt. rewrite !length_app, length_take.
    change (length (py _)) with 31%nat. cbn [length]. lia. }
  split.
  { unfold trace, bind, call.
    destruct (generate_content env _); reflexivity. }
  split; [lia|]. split; [exact Hlen|].
  intros e He. unfold result, bind, call. rewrite He. reflexivity.
Qed.

Lemma summarize_text_ja_prompt_bound_witness :
  result (summarize_text_ja Faulty.run_gen_down (py "some text"))
  = Raise (LibraryError (py "503 Service Unavailable")).
Proof.
  destruct (summarize_text_ja_prompt_bound Faulty.run_gen_down (py "some text"))
    as (prompt & Ht & _ & _ & Hraise).
  apply Hraise. reflexivity.
Defined.

(** ** Narration, continued *)

Lemma find_style_some (style : str) (styles : list Style) (id : Z) :
  find_style style styles = Some id ->
  exists st, st ∈ styles /\ style_name st = style /\ style_id st = id.
Proof.
  induction styles as [|st rest IH]; simpl; [discriminate|].
  destruct (Str.eqb (style_name st) style) eqn:E.
  - intros [= <-]. apply str_eqb_spec in E. exists st. split; [left | auto].
  - intros H. destruct (IH H) as (st' & Hin & Hs). exists st'.
    split; [right; exact Hin | exact Hs].
Qed.

Lemma find_speaker_some (name style : str) (catalog : list Speaker) (id : Z) :
  find_speaker name style catalog = Some id ->
  exists sp st, sp ∈ catalog /\ st ∈ speaker_styles sp
                /\ speaker_name sp = name /\ style_name st = style
                /\ style_id st = id.
Proof.
  induction catalog as [|sp rest IH]; simpl; [discriminate|].
  assert (Hrest : find_speaker name style rest = Some id ->
                  exists sp0 st, sp0 ∈ sp :: rest /\ st ∈ speaker_styles sp0
                    /\ speaker_name sp0 = name /\ style_name st = style
                    /\ style_id st = id).
  { intros H. destruct (IH H) as (sp0 & st & Hin & Hrest).
    exists sp0, st. split; [right; exact Hin | exact Hrest]. }
  destruct (Str.eqb (speaker_name sp) name) eqn:E; [|exact Hrest].
  destruct (find_style style (speaker_styles sp)) as [id'|] eqn:Hst;
    [|exact Hrest].
  intros [= <-]. apply str_eqb_spec in E.
  destruct (find_style_some _ _ _ Hst) as (st & Hin & Hs & Hid).
  exists sp, st. split; [left | auto].
Qed.

Lemma find_style_found (style : str) (styles : list Style) (st : Style) :
  st ∈ styles -> style_name st = style -> find_style style styles <> None.
Proof.
  intros Hin Hs. induction styles as [|st0 styles IH]; simpl.
  - inversion Hin.
  - destruct (Str.eqb (style_name st0) style) eqn:E; [discriminate|].
    apply elem_of_cons in Hin as [->|Hin]; [|exact (IH Hin)].
    apply str_eqb_spec in Hs. congruence.
Qed.

Lemma find_speaker_found (name style : str) (catalog : list Speaker) :
  voice_match name style catalog ->
  exists id, find_speaker name style catalog = Some id.
Proof.
  intros (sp & st & Hsp & Hst & Hn & Hs).
  induction catalog as [|sp0 rest IH]; [inversion Hsp|].
  cbn [find_speaker].
  apply elem_of_cons in Hsp as [<-|Hsp].
  - apply str_eqb_spec in Hn. rewrite Hn.
    pose proof (find_style_found style _ st Hst Hs) as Hf.
    destruct (find_style style (speaker_styles sp)) as [id|]; [eauto | contradiction].
  - destruct (IH Hsp) as [id Hid]. rewrite Hid.
    destruct (Str.eqb (speaker_name sp0) name); [|eauto].
    destruct (find_style style (speaker_styles sp0)); eauto.
Qed.

(** X10. With the catalog listed, [get_speaker_id] returns an identifier only
    if the catalog has a speaker of exactly that name with a style of exactly
    that name, and the identifier is that style's; and it does return one
    whenever the catalog has such a speaker and style. *)
Theorem get_speaker_id_sound_complete (env : Env) (catalog : list Speaker)
        (name style : str) :
  get_speakers env = inr catalog ->
  (forall id,
     result (get_speaker_id env name style) = Ok (Some id) ->
     exists sp st, sp ∈ catalog /\ st ∈ speaker_styles sp
                   /\ speaker_name sp = name /\ style_name st = style
                   /\ style_id st = id)
  /\ (voice_match name style catalog ->
      exists id, get_speaker_id env name style = ([EGetSpeakers], Ok (Some id))).
Proof.
  intros Hcat. unfold get_speaker_id, call. rewrite Hcat. cbv beta iota.
  rewrite bind_ok. cbn [trace result fst snd ret app]. split.
  - intros id [= H]. apply find_speaker_some, H.
  - intros Hm. destruct (find_speaker_found _ _ _ Hm) as [id ->]. eauto.
Qed.

Lemma get_speaker_id_sound_complete_witness :
  exists id,
    get_speaker_id Sample.run_a (py "四国めたん") (py "あまあま")
    = ([EGetSpeakers], Ok (Some id)).
Proof.
  destruct (get_speaker_id_sound_complete Sample.run_a
              [Sample.zundamon; Sample.metan] (py "四国めたん") (py "あまあま")
              eq_refl) as [_ H].
  apply H. exists Sample.metan, {| style_name := py "あまあま"; style_id := 0 |}.
  split; [right; left|]. split; [left|]. split; reflexivity.
Defined.

Lemma find_style_first (style : str) (before after : list Style) (st : Style) :
  (forall st', st' ∈ before -> style_name st' <> style) ->
  style_name st = style ->
  find_style style (before ++ st :: after) = Some (style_id st).
Proof.
  intros Hb Hs. induction before as [|st0 before IH]; simpl.
  - apply str_eqb_spec in Hs. rewrite Hs. reflexivity.
  - destruct (Str.eqb (style_name st0) style) eqn:E.
    + apply str_eqb_spec in E. exfalso. apply (Hb st0); [left | exact E].
    + apply IH. intros st' Hin. apply Hb. right. exact Hin.
Qed.

Lemma find_speaker_skip (name style : str) (before rest : list Speaker) :
  ~ voice_match name style before ->
  find_speaker name style (before ++ rest) = find_speaker name style rest.
Proof.
  induction before as [|sp before IH]; intros Hno; [reflexivity|].
  cbn [app find_speaker].
  assert (Hb : ~ voice_match name style before).
  { intros (sp' & st & Hsp & Hrest). apply Hno. exists sp', st.
    split; [right; exact Hsp | exact Hrest]. }
  rewrite (IH Hb).
  destruct (Str.eqb (speaker_name sp) name) eqn:E; [|reflexivity].
  apply str_eqb_spec in E. rewrite find_style_none; [reflexivity|].
  intros st Hst Hs. apply Hno. exists sp, st. split; [left | auto].
Qed.

(** X11. When several entries of the catalog match, the first one wins:
    [get_speaker_id] returns the identifier of the first style of the asked
    name in the first speaker of the asked name that has such a style; a
    speaker of the asked name without the style does not end the search. *)
Theorem get_speaker_id_first_match (env : Env) (name style : str)
        (before after : list Speaker) (sp : Speaker)
        (styles_before styles_after : list Style) (st : Style) :
  get_speakers env = inr (before ++ sp :: after) ->
  ~ voice_match name style before ->
  speaker_name sp = name ->
  speaker_styles sp = styles_before ++ st :: styles_after ->
  (forall st', st' ∈ styles_before -> style_name st' <> style) ->
  style_name st = style ->
  get_speaker_id env name style = ([EGetSpeakers], Ok (Some (style_id st))).
Proof.
  intros Hcat Hno Hn Hstyles Hsb Hs.
  unfold get_speaker_id, call. rewrite Hcat. cbv beta iota.
  rewrite bind_ok. cbn [trace result fst snd ret app].
  rewrite (find_speaker_skip _ _ _ _ Hno). cbn [find_speaker].
  apply str_eqb_spec in Hn. rewrite Hn, Hstyles.
  rewrite (find_style_first _ _ _ _ Hsb Hs). reflexivity.
Qed.

Lemma get_speaker_id_first_match_witness :
  get_speaker_id Voices.run_two_metan (py "四国めたん") (py "ノーマル")
  = ([EGetSpeakers], Ok (Some 2%Z)).
Proof.
  apply (get_speaker_id_first_match Voices.run_two_metan
           (py "四国めたん") (py "ノーマル")
           [Sample.zundamon; Voices.metan_whisper] [Voices.metan_other]
           Sample.metan
           [ {| style_name := py "あまあま"; style_id := 0 |} ] []
           {| style_name := py "ノーマル"; style_id := 2 |}).
  - reflexivity.
  - intros (sp & st & Hsp & Hst & Hn & Hs).
    apply elem_of_cons in Hsp as [->|Hsp].
    + vm_compute in Hn. discriminate.
    + apply list_elem_of_singleton in Hsp. subst sp.
      apply list_elem_of_singleton in Hst. subst st.
      vm_compute in Hs. discriminate.
  - reflexivity.
  - reflexivity.
  - intros st' Hin. apply list_elem_of_singleton in Hin. subst st'.
    vm_compute. discriminate.
  - reflexivity.
Defined.

(** X12. When the voice is in the catalog and both posts are answered,
    [voicevox_tts] lists the speakers, posts the cleaned text to
    [audio_query], posts the returned query to [synthesis] with its
    [speedScale] set to the asked speed (whatever it was) and every other
    field as returned, writes the audio to [outputs/<filename>] and returns
    that path. *)
Theorem voicevox_tts_synthesizes (env : Env) (catalog : list Speaker)
        (id : Z) (text filename : str) (speed : Q)
        (query : gmap (list N) Json) (audio : bytes) :
  get_speakers env = inr catalog ->
  find_speaker default_name default_style catalog = Some id ->
  post_audio_query env (cleaned_text text) id = inr query ->
  post_synthesis env id (<[py "speedScale" := JNum speed]> query) = inr audio ->
  open_wb env (Path.join SAVE_DIR filename) audio = None ->
  exists sent : gmap (list N) Json,
    voicevox_tts env text filename speed
    = ([EGetSpeakers; EAudioQuery (cleaned_text text) id; ESynthesis id sent;
        EFileWrite (Path.join SAVE_DIR filename) audio],
       Ok (Path.join SAVE_DIR filename))
    /\ sent !! py "speedScale" = Some (JNum speed)
    /\ (forall key, key <> py "speedScale" -> sent !! key = query !! key).
Proof.
  intros Hcat Hid Hq Hs Hw.
  exists (<[py "speedScale" := JNum speed]> query). split.
  - unfold voicevox_tts, get_speaker_id, call. rewrite Hcat. cbv beta iota.
    rewrite bind_ok. cbn [trace result fst snd ret app]. rewrite bind_ok.
    rewrite Hid. cbn [trace result fst snd app].
    fold (cleaned_text text). rewrite Hq, bind_ok. cbv zeta.
    rewrite Hs, bind_ok. unfold write_file, call_. rewrite Hw.
    rewrite bind_ok. reflexivity.
  - split; [apply lookup_insert_eq|].
    intros key Hne. apply lookup_insert_ne. congruence.
Qed.

Lemma voicevox_tts_synthesizes_witness :
  exists sent : gmap (list N) Json,
    voicevox_tts Sample.run_a (py "**three** points") (py "n.wav") (11 # 10)
    = ([EGetSpeakers; EAudioQuery (py "three points") 2; ESynthesis 2 sent;
        EFileWrite (py "outputs/n.wav") [Byte.x52; Byte.x49]],
       Ok (py "outputs/n.wav"))
    /\ sent !! py "speedScale" = Some (JNum (11 # 10)).
Proof.
  destruct (voicevox_tts_synthesizes Sample.run_a [Sample.zundamon; Sample.metan]
              2 (py "**three** points") (py "n.wav") (11 # 10) ∅
              [Byte.x52; Byte.x49] eq_refl eq_refl eq_refl eq_refl eq_refl)
    as (sent & Hrun & Hspeed & _).
  exists sent. split; [exact Hrun | exact Hspeed].
Defined.

Lemma replace_skip1 (old new : str) (c : char) (t : str) :
  Str.replace_from old new 1 (c :: t) = Str.replace_from old new 0 t.
Proof. reflexivity. Qed.

Lemma cleaned_text_cons (c : char) (t : str) :
  cleaned_text (c :: t)
  = match t with
    | b :: t' => if (c =? Chr.star) && (b =? Chr.star) then cleaned_text t'
                 else c :: cleaned_text t
    | [] => [c]
    end.
Proof.
  unfold cleaned_text, Str.replace. cbn [Str.replace_from Str.starts_with].
  rewrite N.eqb_sym.
  destruct t as [|b t']; [rewrite andb_false_r; reflexivity|].
  rewrite (N.eqb_sym Chr.star b), andb_true_r.
  destruct ((c =? Chr.star) && (b =? Chr.star)); reflexivity.
Qed.

Lemma cleaned_text_props (n : nat) :
  forall text : str,
    (length text <= n)%nat ->
    adjacent Chr.star (cleaned_text text) = false
    /\ (forall c, head text = Some c -> (c =? Chr.star) = false ->
                  head (cleaned_text text) = Some c)
    /\ List.filter (fun c => negb (c =? Chr.star)) (cleaned_text text)
       = List.filter (fun c => negb (c =? Chr.star)) text
    /\ (adjacent Chr.star text = false -> cleaned_text text = text).
Proof.
  induction n as [|n IH]; intros text Hlen.
  - destruct text; [|simpl in Hlen; lia].
    repeat split; try reflexivity. discriminate.
  - destruct text as [|c t]; [repeat split; try reflexivity; discriminate|].
    rewrite cleaned_text_cons. destruct t as [|b t'].
    + repeat split; try reflexivity.
      * cbn [adjacent]. rewrite andb_false_r. reflexivity.
      * intros c' [= <-] _. reflexivity.
    + cbn [length] in Hlen.
      destruct (IH (b :: t') ltac:(cbn [length]; lia)) as (Ha & Hh & Hf & Hid).
      destruct (IH t' ltac:(lia)) as (Ha' & Hh' & Hf' & Hid').
      destruct (c =? Chr.star) eqn:Hc; cbn [andb].
      * destruct (b =? Chr.star) eqn:Hb.
        -- split; [exact Ha'|]. split; [intros c' [= <-]; congruence|].
           split.
           ++ cbn [List.filter]. rewrite Hc, Hb. exact Hf'.
           ++ cbn [adjacent]. rewrite Hc, Hb. discriminate.
        -- split.
           { pose proof (Hh b eq_refl Hb) as Hhead.
             destruct (cleaned_text (b :: t')) as [|x r]; [discriminate|].
             injection Hhead as ->. cbn [adjacent] in Ha |- *.
             rewrite Hb in Ha |- *. rewrite andb_false_r.
             cbn [andb orb] in Ha |- *. exact Ha. }
           split; [intros c' [= <-]; congruence|].
           split.
           { cbn [List.filter]. rewrite Hc. cbn [negb]. exact Hf. }
           intros Hadj. f_equal. apply Hid.
           cbn [adjacent] in Hadj. apply orb_false_iff in Hadj as [_ Hadj].
           exact Hadj.
      * split.
        { cbn [adjacent]. rewrite Ha, orb_false_r, Hc. reflexivity. }
        split; [intros c' [= <-] _; reflexivity|].
        split.
        { cbn [List.filter]. rewrite Hc. cbn [negb]. f_equal. exact Hf. }
        intros Hadj. f_equal. apply Hid.
        cbn [adjacent] in Hadj. apply orb_false_iff in Hadj as [_ Hadj].
        exact Hadj.
Qed.

Lemma adjacent_lookup (c : char) (s : str) (i : nat) :
  adjacent c s = false -> s !! i = Some c -> s !! S i <> Some c.
Proof.
  revert i. induction s as [|a t IH]; intros i Hr; [discriminate|].
  cbn [adjacent] in Hr. apply orb_false_iff in Hr as [Ha Ht].
  destruct i as [|i]; simpl.
  - intros [= ->]. rewrite N.eqb_refl in Ha.
    destruct t as [|b t']; simpl; [discriminate|].
    intros [= ->]. rewrite N.eqb_refl in Ha. discriminate.
  - apply IH, Ht.
Qed.

(** X13. The text sent to the synthesis engine never has two neighbouring
    stars, whatever text comes in; every character that is no star is sent
    in place and order; and a text without two neighbouring stars is sent
    unchanged. *)
Theorem cleaned_text_no_emphasis (text : str) :
  (forall i, cleaned_text text !! i = Some Chr.star ->
             cleaned_text text !! S i <> Some Chr.star)
  /\ List.filter (fun c => negb (c =? Chr.star)) (cleaned_text text)
     = List.filter (fun c => negb (c =? Chr.star)) text
  /\ (adjacent Chr.star text = false -> cleaned_text text = text).
Proof.
  destruct (cleaned_text_props (length text) text (le_n _))
    as (Ha & _ & Hf & Hid).
  split; [intros i; apply adjacent_lookup, Ha|]. split; assumption.
Qed.

Lemma cleaned_text_no_emphasis_witness :
  cleaned_text (py "a *b* c") = py "a *b* c"
  /\ cleaned_text (py "***a****b**") !! 1%nat <> Some Chr.star.
Proof.
  destruct (cleaned_text_no_emphasis (py "a *b* c")) as (_ & _ & Hid).
  destruct (cleaned_text_no_emphasis (py "***a****b**")) as (Hno & _ & _).
  split; [apply Hid; reflexivity | apply (Hno 0%nat); reflexivity].
Defined.

(** ** The outline parser, continued *)

Lemma split1_spec (sep : char) (s : str) :
  Str.contains sep s = true ->
  exists k v, Str.split1 sep s = (k, v) /\ s = k ++ sep :: v /\ sep ∉ k.
Proof.
  induction s as [|c t IH]; [discriminate|].
  cbn [Str.contains existsb Str.split1]. rewrite N.eqb_sym.
  destruct (c =? sep) eqn:E.
  - intros _. apply N.eqb_eq in E. subst c.
    exists [], t. split; [reflexivity|]. split; [reflexivity|].
    apply not_elem_of_nil.
  - cbn [orb]. intros H. destruct (IH H) as (k & v & Hs & -> & Hk).
    exists (c :: k), v. rewrite Hs. split; [reflexivity|].
    split; [reflexivity|]. apply not_elem_of_cons. split; [|exact Hk].
    intros ->. rewrite N.eqb_refl in E. discriminate.
Qed.

Lemma strip_strip (s : str) : Str.strip (Str.strip s) = Str.strip s.
Proof.
  apply strip_by_id; intros c; [apply strip_by_head | apply strip_by_last].
Qed.

Lemma strip_subset (s : str) (c : char) : c ∈ Str.strip s -> c ∈ s.
Proof.
  intros H. destruct (strip_by_infix Str.isspace s) as (w1 & w2 & E).
  rewrite E. apply elem_of_app. right. apply elem_of_app. left. exact H.
Qed.

Lemma parse_line_lookup (slides : gmap (list N) (list N)) (line k v : str) :
  parse_line slides line !! k = Some v ->
  slides !! k = Some v
  \/ exists key val,
       line = key ++ Chr.colon :: val /\ (Chr.colon ∉ key)
       /\ Str.strip key = k /\ Str.strip val = v.
Proof.
  unfold parse_line. destruct (Str.contains Chr.colon line) eqn:Hc; [|auto].
  destruct (split1_spec _ _ Hc) as (key & val & -> & Hline & Hk).
  destruct (decide (Str.strip key = k)) as [<-|Hne].
  - rewrite lookup_insert_eq. intros [= <-]. right. eauto 6.
  - rewrite lookup_insert_ne by exact Hne. auto.
Qed.

Lemma parse_lines_lookup (lines : list str) (k v : str) :
  forall slides : gmap (list N) (list N),
    foldl parse_line slides lines !! k = Some v ->
    slides !! k = Some v
    \/ exists line key val,
         line ∈ lines /\ line = key ++ Chr.colon :: val /\ (Chr.colon ∉ key)
         /\ Str.strip key = k /\ Str.strip val = v.
Proof.
  induction lines as [|line lines IH]; intros slides; cbn [foldl]; [auto|].
  intros H. destruct (IH _ H) as [H0 | (l & key & val & Hin & Hrest)].
  - destruct (parse_line_lookup _ _ _ _ H0) as [Hs | (key & val & Hrest)];
      [auto|].
    right. exists line, key, val. split; [left | exact Hrest].
  - right. exists l, key, val. split; [right; exact Hin | exact Hrest].
Qed.

Lemma parse_line_binds (slides : gmap (list N) (list N)) (line k : str) :
  line_key line = Some k \/ is_Some (slides !! k) ->
  is_Some (parse_line slides line !! k).
Proof.
  unfold line_key, parse_line.
  destruct (Str.contains Chr.colon line).
  - destruct (Str.split1 Chr.colon line) as [key val]. cbn [fst].
    destruct (decide (Str.strip key = k)) as [<-|Hne].
    + intros _. rewrite lookup_insert_eq. eauto.
    + rewrite lookup_insert_ne by exact Hne. intros [[= ?]|H]; congruence.
  - intros [H|H]; [discriminate | exact H].
Qed.

Lemma parse_lines_binds (lines : list str) (k : str) :
  forall slides : gmap (list N) (list N),
    Exists (fun line => line_key line = Some k) lines \/ is_Some (slides !! k) ->
    is_Some (foldl parse_line slides lines !! k).
Proof.
  induction lines as [|line lines IH]; intros slides; cbn [foldl].
  - intros [H|H]; [inversion H | exact H].
  - intros [H|H]; apply IH.
    + inversion H; subst; [right; apply parse_line_binds; auto | auto].
    + right. apply parse_line_binds. auto.
Qed.

Lemma join_elem (sep c : char) (lines : list str) (line : str) :
  line ∈ lines -> c ∈ line -> c ∈ join sep lines.
Proof.
  intros Hin Hc. induction lines as [|w ws IH]; [inversion Hin|].
  apply elem_of_cons in Hin as [->|Hin].
  - destruct ws; [exact Hc|]. cbn [join]. apply elem_of_app. left. exact Hc.
  - destruct ws as [|w' ws']; [inversion Hin|].
    cbn [join]. apply elem_of_app. right. right. apply IH, Hin.
Qed.

(** X14. A key is missing from the outline exactly when no line of the
    response binds it: the parser loses no line that has a colon, and makes
    up no key. In particular a response without any colon gives the empty
    outline. *)
Theorem parse_outline_missing_key (res k : str) :
  (parse_outline res !! k = None
   <-> Forall (fun line => line_key line <> Some k) (Str.split Chr.LF res))
  /\ (Chr.colon ∉ res -> parse_outline res = ∅).
Proof.
  assert (Hiff : parse_outline res !! k = None
            <-> Forall (fun line => line_key line <> Some k)
                       (Str.split Chr.LF res)).
  { unfold parse_outline. split.
    - intros Hnone. apply Forall_forall. intros line Hin Hk.
      assert (Hs : is_Some (foldl parse_line (∅ : gmap (list N) (list N))
                              (Str.split Chr.LF res) !! k)).
      { apply parse_lines_binds. left. apply Exists_exists. eauto. }
      rewrite Hnone in Hs. destruct Hs as [? Hs]. discriminate.
    - intros Hall. rewrite (parse_lines_other_key _ _ Hall).
      apply lookup_empty. }
  split; [exact Hiff|].
  intros Hno. apply map_eq. intros k'. rewrite lookup_empty.
  unfold parse_outline. rewrite parse_lines_other_key; [apply lookup_empty|].
  apply Forall_forall. intros line Hin. unfold line_key.
  rewrite contains_false; [discriminate|].
  intros Hc. apply Hno.
  pose proof (split_join Chr.LF res) as [Hj _]. rewrite <- Hj.
  exact (join_elem _ _ _ _ Hin Hc).
Qed.

Lemma parse_outline_missing_key_witness :
  parse_outline Sample.outline_response !! py "PURPOSE" = None
  /\ parse_outline (py "no outline, sorry") = ∅.
Proof.
  destruct (parse_outline_missing_key Sample.outline_response (py "PURPOSE"))
    as [[_ H] _].
  destruct (parse_outline_missing_key (py "no outline, sorry") []) as [_ H0].
  split.
  - apply H. repeat constructor; vm_compute; discriminate.
  - apply H0. intros Hc. apply contains_spec in Hc. vm_compute in Hc.
    discriminate.
Defined.

(** X15. Every binding of the outline comes from a line of the response:
    the key is the trimmed text before the first colon of that line and the
    value the trimmed text after it. Hence keys and values have no
    whitespace at either end and no line feed, and keys have no colon. *)
Theorem parse_outline_bindings (res k v : str) :
  parse_outline res !! k = Some v ->
  (exists line key val,
     line ∈ Str.split Chr.LF res
     /\ line = key ++ Chr.colon :: val /\ (Chr.colon ∉ key)
     /\ Str.strip key = k /\ Str.strip val = v)
  /\ Str.strip k = k /\ Str.strip v = v
  /\ (Chr.colon ∉ k) /\ (Chr.LF ∉ k) /\ (Chr.LF ∉ v).
Proof.
  intros H. unfold parse_outline in H.
  destruct (parse_lines_lookup _ _ _ _ H)
    as [H0 | (line & key & val & Hin & Hline & Hk & <- & <-)].
  { rewrite lookup_empty in H0. discriminate. }
  split; [eauto 8|].
  split; [apply strip_strip|]. split; [apply strip_strip|].
  pose proof (split_no_sep Chr.LF res) as Hlf.
  rewrite Forall_forall in Hlf. specialize (Hlf _ Hin). subst line.
  split; [intros Hc; apply Hk, strip_subset, Hc|].
  split; intros Hc; apply Hlf, elem_of_app; apply strip_subset in Hc.
  - left. exact Hc.
  - right. right. exact Hc.
Qed.

Lemma parse_outline_bindings_witness :
  exists line key val,
    line ∈ Str.split Chr.LF Sample.outline_response
    /\ line = key ++ Chr.colon :: val
    /\ Str.strip key = py "RESULT" /\ Str.strip val = py "better".
Proof.
  destruct (parse_outline_bindings Sample.outline_response (py "RESULT")
              (py "better"))
    as [(line & key & val & Hin & Hline & _ & Hk & Hv) _].
  { vm_compute. reflexivity. }
  exists line, key, val. auto.
Defined.

(** ** The video, continued *)

(** X16. For any number of slides, one at least: when the images and the
    audio load and the output can be written, the clip [generate_video]
    writes shows the slides in the order given, lasts 4 seconds times their
    number, carries the audio as loaded, and is written once at 24 frames
    per second. *)
Theorem generate_video_four_seconds_each (env : Env) (slide_paths : list str)
        (audio_path output_path : str) (d : Q) :
  slide_paths <> [] ->
  Forall (fun p => image_clip env p = None) slide_paths ->
  audio_file_clip env audio_path = inr d ->
  write_videofile env output_path = None ->
  generate_video env slide_paths audio_path output_path
  = (map EImageClip slide_paths
     ++ [EAudioFileClip audio_path;
         EWriteVideofile output_path 24
           {| clip_images := slide_paths;
              clip_duration := Some (4 * Z.of_nat (length slide_paths))%Z;
              clip_audio := Some {| audio_file := audio_path;
                                    audio_duration := d |} |}],
     Ok output_path).
Proof. apply generate_video_clip. Qed.

Lemma generate_video_four_seconds_each_witness :
  generate_video Sample.run_a [py "outputs/a.png"; py "outputs/b.png"]
                 (py "outputs/n.wav") (py "outputs/v.mp4")
  = ([EImageClip (py "outputs/a.png"); EImageClip (py "outputs/b.png");
      EAudioFileClip (py "outputs/n.wav");
      EWriteVideofile (py "outputs/v.mp4") 24
        {| clip_images := [py "outputs/a.png"; py "outputs/b.png"];
           clip_duration := Some 8%Z;
           clip_audio := Some {| audio_file := py "outputs/n.wav";
                                 audio_duration := 7 # 2 |} |}],
     Ok (py "outputs/v.mp4")).
Proof.
  apply (generate_video_four_seconds_each Sample.run_a
           [py "outputs/a.png"; py "outputs/b.png"]
           (py "outputs/n.wav") (py "outputs/v.mp4") (7 # 2)).
  - discriminate.
  - repeat constructor.
  - reflexivity.
  - reflexivity.
Defined.

Lemma image_clips_fail (env : Env) (slide_paths : list str) :
  Exists (fun p => image_clip env p <> None) slide_paths ->
  exists e,
    result (mapM (fun p => do c <- ImageClip env p;
                           ret (Moviepy.set_duration 4 c)) slide_paths)
    = Raise e.
Proof.
  induction slide_paths as [|p ps IH]; intros H; [inversion H|].
  cbn [mapM]. unfold ImageClip at 1. unfold call_.
  destruct (image_clip env p) as [e|] eqn:Hp; [exists e; reflexivity|].
  inversion H as [? ? Hne | ? ? Hex]; subst; [congruence|].
  destruct (IH Hex) as [e He]. exists e.
  destruct (mapM _ ps) as [t [cs|e']]; cbn [result snd] in He;
    [discriminate|].
  cbn [bind ret trace result fst snd app]. exact He.
Qed.

Lemma image_clips_all_or_some (env : Env) (slide_paths : list str) :
  Exists (fun p => image_clip env p <> None) slide_paths
  \/ Forall (fun p => image_clip env p = None) slide_paths.
Proof.
  induction slide_paths as [|p ps [IH|IH]].
  - right. constructor.
  - left. apply Exists_cons_tl, IH.
  - destruct (image_clip env p) eqn:E.
    + left. apply Exists_cons_hd. congruence.
    + right. constructor; assumption.
Qed.

(** X17. [generate_video] writes no video unless every image and the audio
    loaded: when there is no slide, or an image fails to load, or the audio
    fails to load, it raises and its trace has no file write. *)
Theorem generate_video_no_partial_output (env : Env) (slide_paths : list str)
        (audio_path output_path : str) :
  slide_paths = []
  \/ Exists (fun p => image_clip env p <> None) slide_paths
  \/ (exists e, audio_file_clip env audio_path = inl e) ->
  (exists e, result (generate_video env slide_paths audio_path output_path)
             = Raise e)
  /\ written_paths (trace (generate_video env slide_paths audio_path output_path))
     = [].
Proof.
  intros H. unfold generate_video.
  pose proof (image_clips_written env slide_paths) as Hw.
  destruct (image_clips_all_or_some env slide_paths) as [Hex|Hok].
  - destruct (image_clips_fail env slide_paths Hex) as [e He].
    destruct (mapM _ slide_paths) as [t [cs|e']]; cbn [result snd] in He;
      [discriminate|].
    rewrite bind_raise. cbn [trace result fst snd] in Hw |- *. eauto.
  - assert (Hall : ~ Exists (fun p => image_clip env p <> None) slide_paths).
    { intros Hex. apply Exists_exists in Hex as (p & Hin & Hp).
      rewrite Forall_forall in Hok. apply Hp, Hok, Hin. }
    rewrite (image_clips_loaded env slide_paths Hok) in Hw |- *.
    cbn [trace fst] in Hw. rewrite bind_ok.
    destruct slide_paths as [|p ps].
    + cbn [map Moviepy.concatenate_videoclips]. unfold raise.
      rewrite bind_raise. cbn [trace result fst snd app]. eauto.
    + destruct H as [H | [H | [e He]]]; [discriminate | contradiction |].
      rewrite (concatenate_stills (p :: ps)) by discriminate.
      rewrite bind_ret. unfold AudioFileClip, call. rewrite He.
      cbv beta iota. rewrite !bind_raise.
      cbn [trace result fst snd]. split; [eauto|].
      rewrite written_paths_app, Hw. reflexivity.
Qed.

Lemma generate_video_no_partial_output_witness :
  written_paths
    (trace (generate_video Sample.run_a [] (py "outputs/n.wav")
              (py "outputs/v.mp4"))) = [].
Proof.
  apply (generate_video_no_partial_output Sample.run_a []
           (py "outputs/n.wav") (py "outputs/v.mp4")).
  left. reflexivity.
Defined.

(** ** The runner, continued *)

Lemma mapM_cons {A B} (f : A -> M B) (a : A) (l : list A) :
  mapM f (a :: l) = (do b <- f a; do bs <- mapM f l; ret (b :: bs)).
Proof. reflexivity. Qed.

Lemma slides_rendered (env : Env) (structure : gmap (list N) (list N))
      (keys : list str) :
  Forall (fun key => image_save env (slide_path key) = None) keys ->
  mapM (fun key =>
          let msg := key ++ [Chr.LF; Chr.LF] ++ default [] (structure !! key) in
          let path := slide_path key in
          exec create_slide_image env msg path;
          ret path) keys
  = (map (slide_event structure) keys, Ok (map slide_path keys)).
Proof.
  induction 1 as [|key keys Hk _ IH]; [reflexivity|].
  rewrite mapM_cons, IH. cbv zeta. unfold create_slide_image, call_.
  rewrite Hk. cbn [bind ret trace result fst snd app map].
  rewrite app_nil_r. reflexivity.
Qed.

Lemma head_trace_bind {A B} (m : M A) (f : A -> M B) (ev : Event) :
  head (trace m) = Some ev -> head (trace (bind m f)) = Some ev.
Proof.
  destruct m as [[|ev0 t] [a|e]]; cbn [trace fst head]; try discriminate.
  - intros [= ->]. unfold bind. destruct (f a). reflexivity.
  - intros [= ->]. reflexivity.
Qed.

Lemma voicevox_tts_first_event (env : Env) (text filename : str) (speed : Q)
      {B} (k : str -> M B) :
  head (trace (bind (voicevox_tts env text filename speed) k))
  = Some EGetSpeakers.
Proof.
  unfold voicevox_tts, get_speaker_id. do 3 apply head_trace_bind.
  reflexivity.
Qed.

Lemma main_from_text_to_narration (env : Env) (raw_title text sres ores : str) :
  generate_content env (summary_prompt (take 5000 text)) = inr sres ->
  generate_content env (outline_prompt raw_title (Str.strip sres)) = inr ores ->
  Forall (fun key => image_save env (slide_path key) = None) slide_keys ->
  main_from_text env raw_title text
  = bind ([EGenerate (summary_prompt (take 5000 text));
           EGenerate (outline_prompt raw_title (Str.strip sres))]
          ++ map (slide_event (parse_outline ores)) slide_keys, Ok tt)
         (fun _ =>
            do audio_path <-
              voicevox_tts env (Str.strip sres)
                (py "narration_" ++ utcnow_Ymd env ++ py ".wav") default_speed;
            exec generate_video env (map slide_path slide_keys) audio_path
                   (Path.join SAVE_DIR
                      (py "paper_video_" ++ utcnow_Ymd env ++ py ".mp4"));
            exec print ([Chr.LF] ++ py "🎉 完成！ → "
                        ++ Path.join SAVE_DIR
                             (py "paper_video_" ++ utcnow_Ymd env ++ py ".mp4"));
            ret Done).
Proof.
  intros Hs Ho Himg. unfold main_from_text, summarize_text_ja.
  rewrite truncated_take. change MAX_CHARS with 5000%nat.
  unfold call at 1. rewrite Hs. rewrite bind_ok.
  cbv beta iota delta [trace result fst snd ret]. rewrite bind_ok.
  unfold build_slide_structure, call. rewrite Ho. rewrite bind_ok.
  cbv beta iota zeta delta [trace result fst snd ret]. rewrite bind_ok.
  cbv beta.
  pose proof (slides_rendered env (parse_outline ores) slide_keys Himg) as Hsl.
  cbv beta zeta delta [ret] in Hsl. rewrite Hsl.
  rewrite !bind_ok. reflexivity.
Qed.

(** X18. Once both generative calls are answered and the five images can be
    saved, [main] renders the five slides in the fixed order TITLE, PURPOSE,
    METHOD, RESULT, CONCLUSION, each 1920 by 1080 with the text
    [<key>, empty line, <the outline's text for the key>], the text for a key
    the outline lacks being empty; and only then turns to the narration. *)
Theorem main_renders_five_slides (env : Env) (raw_title text sres ores : str) :
  generate_content env (summary_prompt (take 5000 text)) = inr sres ->
  generate_content env (outline_prompt raw_title (Str.strip sres)) = inr ores ->
  Forall (fun key => image_save env (slide_path key) = None) slide_keys ->
  exists rest,
    trace (main_from_text env raw_title text)
    = [EGenerate (summary_prompt (take 5000 text));
       EGenerate (outline_prompt raw_title (Str.strip sres))]
      ++ map (slide_event (parse_outline ores)) slide_keys
      ++ EGetSpeakers :: rest
    /\ (forall key, parse_outline ores !! key = None ->
          slide_event (parse_outline ores) key
          = EImageSave (slide_path key) 1920 1080 (key ++ [Chr.LF; Chr.LF])).
Proof.
  intros Hs Ho Himg.
  rewrite (main_from_text_to_narration env raw_title text sres ores Hs Ho Himg).
  rewrite bind_ok. cbn [trace fst].
  pose proof (voicevox_tts_first_event env (Str.strip sres)
                (py "narration_" ++ utcnow_Ymd env ++ py ".wav") default_speed
                (fun audio_path =>
                   exec generate_video env (map slide_path slide_keys) audio_path
                          (Path.join SAVE_DIR
                             (py "paper_video_" ++ utcnow_Ymd env ++ py ".mp4"));
                   exec print ([Chr.LF] ++ py "🎉 完成！ → "
                               ++ Path.join SAVE_DIR
                                    (py "paper_video_" ++ utcnow_Ymd env
                                     ++ py ".mp4"));
                   ret Done)) as Hhead.
  destruct (trace _) as [|ev rest] in Hhead |- *; [discriminate|].
  injection Hhead as ->. exists rest. split.
  - rewrite <- app_assoc. reflexivity.
  - intros key Hnone. unfold slide_event. rewrite Hnone. cbn [default].
    rewrite app_nil_r. reflexivity.
Qed.

Lemma main_renders_five_slides_witness :
  exists rest,
    trace (main_from_text Sample.run_a (py "A/B: Test?") (py "page one"))
    = [EGenerate (summary_prompt (py "page one"));
       EGenerate (outline_prompt (py "A/B: Test?")
                    (Str.strip Sample.outline_response))]
      ++ map (slide_event (parse_outline Sample.outline_response)) slide_keys
      ++ EGetSpeakers :: rest.
Proof.
  destruct (main_renders_five_slides Sample.run_a (py "A/B: Test?")
              (py "page one") Sample.outline_response Sample.outline_response
              eq_refl eq_refl)
    as (rest & Ht & _).
  { repeat constructor. }
  exists rest. exact Ht.
Defined.

(** X19. A failure of the generative service ends the run at once: when the
    summary call raises, [main] raises the same exception with that call as
    its only event from the summary on; when the outline call raises, the
    run ends after the two calls. In both cases no slide is rendered and no
    file is written from the summary on. *)
Theorem generative_failure_is_fatal (env : Env) (raw_title text : str) (e : Exn) :
  (generate_content env (summary_prompt (take 5000 text)) = inl e ->
   main_from_text env raw_title text
   = ([EGenerate (summary_prompt (take 5000 text))], Raise e))
  /\ (forall sres,
        generate_content env (summary_prompt (take 5000 text)) = inr sres ->
        generate_content env (outline_prompt raw_title (Str.strip sres)) = inl e ->
        main_from_text env raw_title text
        = ([EGenerate (summary_prompt (take 5000 text));
            EGenerate (outline_prompt raw_title (Str.strip sres))], Raise e)).
Proof.
  split.
  - intros Hs. unfold main_from_text, summarize_text_ja.
    rewrite truncated_take. change MAX_CHARS with 5000%nat.
    unfold call at 1. rewrite Hs. reflexivity.
  - intros sres Hs Ho. unfold main_from_text, summarize_text_ja.
    rewrite truncated_take. change MAX_CHARS with 5000%nat.
    unfold call at 1. rewrite Hs. rewrite bind_ok.
    cbn [trace result fst snd ret app]. rewrite bind_ok.
    unfold build_slide_structure, call. rewrite Ho. reflexivity.
Qed.

Lemma generative_failure_is_fatal_witness :
  main_from_text Faulty.run_gen_down (py "A/B: Test?") []
  = ([EGenerate (summary_prompt [])],
     Raise (LibraryError (py "503 Service Unavailable"))).
Proof.
  apply (generative_failure_is_fatal Faulty.run_gen_down (py "A/B: Test?") []).
  reflexivity.
Defined.

(** X20. When the voice is missing from the catalog, the run fails at the
    narration, after the five slide images have been saved: [main] raises
    the [RuntimeError] right after listing the speakers, and neither a
    narration nor a video file is written. *)
Theorem main_voice_missing (env : Env) (raw_title text sres ores : str)
        (catalog : list Speaker) :
  generate_content env (summary_prompt (take 5000 text)) = inr sres ->
  generate_content env (outline_prompt raw_title (Str.strip sres)) = inr ores ->
  Forall (fun key => image_save env (slide_path key) = None) slide_keys ->
  get_speakers env = inr catalog ->
  ~ voice_match default_name default_style catalog ->
  main_from_text env raw_title text
  = ([EGenerate (summary_prompt (take 5000 text));
      EGenerate (outline_prompt raw_title (Str.strip sres))]
     ++ map (slide_event (parse_outline ores)) slide_keys
     ++ [EGetSpeakers],
     Raise (RuntimeError (py "四国めたんが見つかりません")))
  /\ written_paths (trace (main_from_text env raw_title text))
     = map slide_path slide_keys.
Proof.
  intros Hs Ho Himg Hcat Hno.
  rewrite (main_from_text_to_narration env raw_title text sres ores Hs Ho Himg).
  rewrite bind_ok.
  unfold voicevox_tts, get_speaker_id, call. rewrite Hcat. cbv beta iota.
  rewrite bind_ok. cbn [trace result fst snd ret app].
  rewrite (find_speaker_none _ _ _ Hno). rewrite bind_ok.
  cbn [trace result fst snd raise app]. rewrite bind_raise.
  cbn [trace result fst snd]. split.
  - reflexivity.
  - vm_compute. reflexivity.
Qed.

Lemma main_voice_missing_witness :
  result (main_from_text Sample.run_no_voice (py "A/B: Test?") (py "page one"))
  = Raise (RuntimeError (py "四国めたんが見つかりません"))
  /\ written_paths
       (trace (main_from_text Sample.run_no_voice (py "A/B: Test?")
                 (py "page one")))
     = map slide_path slide_keys.
Proof.
  destruct (main_voice_missing Sample.run_no_voice (py "A/B: Test?")
              (py "page one") Sample.outline_response Sample.outline_response
              [Sample.zundamon] eq_refl eq_refl)
    as [Hrun Hw].
  { repeat constructor. }
  { reflexivity. }
  { intros (sp & st & Hsp & _ & Hn & _).
    apply list_elem_of_singleton in Hsp. subst sp.
    vm_compute in Hn. discriminate. }
  split; [rewrite Hrun; reflexivity | exact Hw].
Defined.

(** X21. [main] works on the first entry of the feed only: the entries after
    it change nothing in what the run does or returns. *)
Theorem main_uses_first_entry_only (env : Env) (entry : Entry)
        (rest : list Entry) :
  feed_entries env arxiv_url = entry :: rest ->
  main env = main (with_feed env (fun _ => [entry])).
Proof.
  intros Hfeed. unfold main, fetch_arxiv_papers, call.
  cbn [with_feed feed_entries]. rewrite Hfeed. reflexivity.
Qed.

Lemma main_uses_first_entry_only_witness :
  main (with_feed Sample.run_a
          (fun _ => feed_entries Sample.run_a arxiv_url
                    ++ feed_entries Sample.run_b arxiv_url))
  = main Sample.run_a.
Proof.
  rewrite (main_uses_first_entry_only
             (with_feed Sample.run_a
                (fun _ => feed_entries Sample.run_a arxiv_url
                          ++ feed_entries Sample.run_b arxiv_url))
             {| entry_title := py "A/B: Test?";
                entry_id := py "http://arxiv.org/abs/2401.00001v1" |}
             (feed_entries Sample.run_b arxiv_url) eq_refl).
  reflexivity.
Defined.

(** ** The order of the stages *)

Lemma shaped_ret {A} (a : A) : shaped [] (ret a).
Proof. split; [reflexivity | intros; reflexivity]. Qed.

Lemma shaped_raise {A} (ks : list Kind) (e : Exn) : shaped ks (@raise A e).
Proof. split; [apply prefix_nil | intros a H; discriminate]. Qed.

Lemma shaped_call {A} (ev : Event) (answer : Exn + A) :
  shaped [kind ev] (call ev answer).
Proof. split; [reflexivity | intros; reflexivity]. Qed.

Lemma shaped_call_ (ev : Event) (answer : option Exn) :
  shaped [kind ev] (call_ ev answer).
Proof. split; [reflexivity | intros; reflexivity]. Qed.

Lemma shaped_bind {A B} (ks1 ks2 : list Kind) (m : M A) (f : A -> M B) :
  shaped ks1 m ->
  (forall a, result m = Ok a -> shaped ks2 (f a)) ->
  shaped (ks1 ++ ks2) (bind m f).
Proof.
  intros [Hp Hok] Hf. destruct m as [t [a|e]].
  - specialize (Hok a eq_refl). specialize (Hf a eq_refl).
    cbn [trace fst] in Hok. destruct Hf as [Hp2 Hok2].
    rewrite bind_ok. unfold shaped, kinds in *. cbn [trace result fst snd].
    rewrite map_app, Hok. split.
    + apply prefix_app, Hp2.
    + intros b Hb. rewrite (Hok2 b Hb). reflexivity.
  - rewrite bind_raise. split.
    + apply prefix_app_r, Hp.
    + intros b Hb. discriminate.
Qed.

Lemma shaped_mapM {A B} (ks : list Kind) (f : A -> M B) (l : list A) :
  (forall a, shaped ks (f a)) ->
  shaped (concat (map (fun _ => ks) l)) (mapM f l).
Proof.
  intros Hf. induction l as [|a l IH]; [apply shaped_ret|].
  rewrite mapM_cons. cbn [map concat].
  apply shaped_bind; [apply Hf|]. intros b _.
  rewrite <- (app_nil_r (concat _)).
  apply shaped_bind; [exact IH|]. intros bs _. apply shaped_ret.
Qed.

Lemma shaped_prefix {A} (ks : list Kind) (m : M A) :
  shaped ks m -> kinds (trace m) `prefix_of` ks.
Proof. intros [H _]. exact H. Qed.

Lemma download_pdf_cases (env : Env) (pdf_url filename : str) :
  (exists msg,
     download_pdf env pdf_url filename
     = ([EGet pdf_url 20; EPrint (py "PDF download failed: " ++ msg)], Ok None))
  \/ (exists data r,
        download_pdf env pdf_url filename
        = ([EGet pdf_url 20; EFileWrite (Path.join SAVE_DIR filename) data], r)
        /\ (r = Ok (Some (Path.join SAVE_DIR filename)) \/ exists e, r = Raise e)).
Proof.
  destruct (requests_get env pdf_url 20) as [e|res] eqn:Hget.
  - left. unfold download_pdf, call. rewrite Hget.
    exists (exn_str e). reflexivity.
  - destruct (Z_le_dec 400 (status_code res)) as [Hlo|Hlo];
      [destruct (Z_lt_dec (status_code res) 600) as [Hhi|Hhi]|].
    + left. apply download_pdf_fails.
      eapply fails_status; [exact Hget | lia].
    + right. exists (content res).
      rewrite (download_pdf_fetched env pdf_url filename res Hget) by lia.
      destruct (open_wb env _ _); eauto.
    + right. exists (content res).
      rewrite (download_pdf_fetched env pdf_url filename res Hget) by lia.
      destruct (open_wb env _ _); eauto.
Qed.

Lemma extract_text_shaped (env : Env) (c : char) (path : str) :
  shaped [KFitzOpen] (extract_text env (Some (c :: path))).
Proof.
  unfold extract_text, try_except, bind, call.
  destruct (fitz_open env (c :: path)) as [e|doc];
    [split; [reflexivity | intros; reflexivity]|].
  destruct (pages_text doc) as [(texts & _ & E) | (e & _ & E)]; rewrite E;
    split; try reflexivity; intros; reflexivity.
Qed.

Lemma summarize_text_ja_shaped (env : Env) (text : str) :
  shaped [KGenerate] (summarize_text_ja env text).
Proof.
  unfold summarize_text_ja. rewrite <- (app_nil_r [KGenerate]).
  apply shaped_bind; [apply shaped_call | intros; apply shaped_ret].
Qed.

Lemma build_slide_structure_shaped (env : Env) (title summary : str) :
  shaped [KGenerate] (build_slide_structure env title summary).
Proof.
  unfold build_slide_structure. rewrite <- (app_nil_r [KGenerate]).
  apply shaped_bind; [apply shaped_call | intros; apply shaped_ret].
Qed.

Lemma voicevox_tts_shaped (env : Env) (text filename : str) (speed : Q) :
  shaped [KGetSpeakers; KAudioQuery; KSynthesis; KFileWrite]
         (voicevox_tts env text filename speed).
Proof.
  unfold voicevox_tts.
  apply (shaped_bind [KGetSpeakers] [KAudioQuery; KSynthesis; KFileWrite]).
  { unfold get_speaker_id. rewrite <- (app_nil_r [KGetSpeakers]).
    apply shaped_bind; [apply shaped_call | intros; apply shaped_ret]. }
  intros [speaker|] _; [|apply shaped_raise].
  apply (shaped_bind [KAudioQuery] [KSynthesis; KFileWrite]);
    [apply shaped_call|]. intros query _. cbv zeta.
  apply (shaped_bind [KSynthesis] [KFileWrite]); [apply shaped_call|].
  intros audio _.
  apply (shaped_bind [KFileWrite] []); [apply shaped_call_|].
  intros; apply shaped_ret.
Qed.

Lemma generate_video_shaped (env : Env) (slide_paths : list str)
      (audio_path output_path : str) :
  shaped (concat (map (fun _ => [KImageClip]) slide_paths)
          ++ [KAudioFileClip; KWriteVideofile])
         (generate_video env slide_paths audio_path output_path).
Proof.
  unfold generate_video. apply shaped_bind.
  { apply shaped_mapM. intros p. unfold ImageClip.
    rewrite <- (app_nil_r [KImageClip]).
    apply shaped_bind; [|intros; apply shaped_ret].
    rewrite <- (app_nil_r [KImageClip]).
    apply shaped_bind; [apply shaped_call_ | intros; apply shaped_ret]. }
  intros clips _.
  apply (shaped_bind [] [KAudioFileClip; KWriteVideofile]).
  { unfold Moviepy.concatenate_videoclips.
    destruct clips as [|c cs]; [apply shaped_raise|].
    destruct (Moviepy.total_duration _); [apply shaped_ret | apply shaped_raise]. }
  intros video _.
  apply (shaped_bind [KAudioFileClip] [KWriteVideofile]).
  { unfold AudioFileClip. rewrite <- (app_nil_r [KAudioFileClip]).
    apply shaped_bind; [apply shaped_call | intros; apply shaped_ret]. }
  intros audio _. cbv zeta.
  apply (shaped_bind [KWriteVideofile] []); [apply shaped_call_|].
  intros; apply shaped_ret.
Qed.

Lemma main_from_text_shaped (env : Env) (raw_title text : str) :
  shaped ([KGenerate; KGenerate]
          ++ [KImageSave; KImageSave; KImageSave; KImageSave; KImageSave]
          ++ [KGetSpeakers; KAudioQuery; KSynthesis; KFileWrite]
          ++ [KImageClip; KImageClip; KImageClip; KImageClip; KImageClip]
          ++ [KAudioFileClip; KWriteVideofile; KPrint])
         (main_from_text env raw_title text).
Proof.
  unfold main_from_text.
  apply (shaped_bind [KGenerate]); [apply summarize_text_ja_shaped|].
  intros summary _.
  apply (shaped_bind [KGenerate]); [apply build_slide_structure_shaped|].
  intros structure _.
  apply (shaped_bind [KImageSave; KImageSave; KImageSave; KImageSave; KImageSave]).
  { apply (shaped_mapM [KImageSave] _ slide_keys). intros key. cbv zeta.
    rewrite <- (app_nil_r [KImageSave]).
    apply shaped_bind; [|intros; apply shaped_ret].
    unfold create_slide_image. rewrite <- (app_nil_r [KImageSave]).
    apply shaped_bind; [apply shaped_call_ | intros; apply shaped_ret]. }
  intros slide_files Hslides. cbv zeta.
  assert (Hfiles : slide_files = map slide_path slide_keys).
  { destruct (mapM _ slide_keys) as [t r] eqn:E in Hslides.
    cbn [result snd] in Hslides. subst r.
    apply slides_written in E as [-> _]. reflexivity. }
  subst slide_files.
  apply (shaped_bind [KGetSpeakers; KAudioQuery; KSynthesis; KFileWrite]);
    [apply voicevox_tts_shaped|].
  intros audio_path _.
  apply (shaped_bind ([KImageClip; KImageClip; KImageClip; KImageClip; KImageClip]
                      ++ [KAudioFileClip; KWriteVideofile]) [KPrint]
           (generate_video env (map slide_path slide_keys) audio_path _)).
  { apply (generate_video_shaped env (map slide_path slide_keys)). }
  intros out _.
  apply (shaped_bind [KPrint] []); [apply shaped_call_|].
  intros; apply shaped_ret.
Qed.

Lemma main_shaped (env : Env) :
  (feed_entries env arxiv_url = [] /\
   kinds (trace (main env)) = [KPrint; KFeedParse; KPrint])
  \/ (feed_entries env arxiv_url <> [] /\
      exists downloaded, shaped (full_run downloaded) (main env)).
Proof.
  unfold main.
  destruct (feed_entries env arxiv_url) as [|entry rest] eqn:Hfeed.
  - left. split; [reflexivity|].
    unfold fetch_arxiv_papers, print, call, call_. rewrite Hfeed.
    reflexivity.
  - right. split; [discriminate|].
    destruct (download_pdf_cases env (pdf_url_of entry)
                (safe_filename (entry_title entry) ++ py ".pdf"))
      as [(msg & Hd) | (data & r & Hd & Hr)].
    + exists false.
      apply (shaped_bind [KPrint]); [apply shaped_call_|]. intros _ _.
      apply (shaped_bind [KFeedParse]); [apply shaped_call|].
      intros papers Hp. unfold fetch_arxiv_papers, call in Hp.
      cbn [result snd] in Hp. rewrite Hfeed in Hp. injection Hp as <-.
      cbv zeta.
      apply (shaped_bind [KPrint]); [apply shaped_call_|]. intros _ _.
      rewrite Hd.
      apply (shaped_bind [KGet; KPrint]);
        [split; [reflexivity | intros; reflexivity]|].
      intros pdf_path [= <-].
      apply (shaped_bind []); [apply shaped_ret|]. intros text _.
      apply main_from_text_shaped.
    + exists true.
      apply (shaped_bind [KPrint]); [apply shaped_call_|]. intros _ _.
      apply (shaped_bind [KFeedParse]); [apply shaped_call|].
      intros papers Hp. unfold fetch_arxiv_papers, call in Hp.
      cbn [result snd] in Hp. rewrite Hfeed in Hp. injection Hp as <-.
      cbv zeta.
      apply (shaped_bind [KPrint]); [apply shaped_call_|]. intros _ _.
      rewrite Hd.
      apply (shaped_bind [KGet; KFileWrite] (KFitzOpen :: _)).
      { split; [reflexivity | intros; reflexivity]. }
      intros pdf_path Hpath. cbn [result snd] in Hpath.
      destruct Hr as [-> | [e ->]]; [|discriminate].
      injection Hpath as <-.
      fold (pdf_path_of (entry_title entry)). rewrite pdf_path_of_title.
      apply (shaped_bind [KFitzOpen]); [apply extract_text_shaped|].
      intros text _. apply main_from_text_shaped.
Qed.

(** X22. The stages of [main] run in one fixed order. With an empty feed
    the events are a print, the feed query and a print. Otherwise the events
    of any run, whether it completes or fails on the way, are by kind the
    first so many of: print, feed query, print, GET; then either the PDF
    write and the opening of the PDF, or the print of the download failure;
    then two generative calls, five image saves, the speaker listing, the
    audio query, the synthesis, the narration write, five image loads, the
    audio load, the video write and the closing print; and a run that
    completes has all of them. *)
Theorem main_stage_order (env : Env) :
  (feed_entries env arxiv_url = [] ->
   kinds (trace (main env)) = [KPrint; KFeedParse; KPrint])
  /\ (feed_entries env arxiv_url <> [] ->
      exists downloaded,
        kinds (trace (main env)) `prefix_of` full_run downloaded
        /\ (result (main env) = Ok Done ->
            kinds (trace (main env)) = full_run downloaded)).
Proof.
  destruct (main_shaped env) as [[Hfeed Hk] | [Hfeed [d [Hp Hok]]]].
  - split; [intros _; exact Hk | contradiction].
  - split; [contradiction|]. intros _. exists d. split; [exact Hp|].
    apply Hok.
Qed.

Lemma main_stage_order_witness :
  kinds (trace (main Sample.run_a)) = full_run true
  /\ kinds (trace (main Sample.run_404)) = full_run false
  /\ kinds (trace (main Sample.run_empty_feed)) = [KPrint; KFeedParse; KPrint].
Proof.
  destruct (main_stage_order Sample.run_a) as [_ Ha].
  destruct (main_stage_order Sample.run_404) as [_ Hb].
  destruct (main_stage_order Sample.run_empty_feed) as [Hc _].
  split; [vm_compute; reflexivity|].
  split; [vm_compute; reflexivity|].
  apply Hc. reflexivity.
Defined.

Lemma calls_app (k : Kind) (a b : list Kind) :
  calls k (a ++ b) = (calls k a + calls k b)%nat.
Proof. unfold calls. rewrite List.filter_app, length_app. reflexivity. Qed.

Lemma calls_prefix (k : Kind) (a b : list Kind) :
  a `prefix_of` b -> (calls k a <= calls k b)%nat.
Proof. intros [c ->]. rewrite calls_app. lia. Qed.

Lemma main_calls_bound (env : Env) (k : Kind) :
  (calls k (kinds (trace (main env))) <= calls k (full_run true))%nat
  \/ (calls k (kinds (trace (main env))) <= calls k (full_run false))%nat.
Proof.
  destruct (main_shaped env) as [[Hfeed Hk] | [Hfeed [d [Hp _]]]].
  - right. rewrite Hk. apply calls_prefix. eexists. reflexivity.
  - destruct d; [left | right]; apply calls_prefix, Hp.
Qed.

Lemma main_trace_starts (env : Env) :
  exists rest,
    trace (main env)
    = EPrint (py "📥 Fetching AI papers...") :: EFeedParse arxiv_url :: rest.
Proof.
  unfold main, fetch_arxiv_papers, print, call, call_.
  rewrite bind_ok. cbv beta. rewrite bind_ok.
  cbn [trace fst app]. eauto.
Qed.

(** X23. No remote call is retried: in every run of [main], whatever fails,
    the feed is queried once, the document requested at most once, the
    generative service called at most twice (summary and outline), and the
    speaker listing, the audio query and the synthesis at most once each;
    at most five images are saved and one video is written. *)
Theorem main_no_retries (env : Env) :
  let ks := kinds (trace (main env)) in
  calls KFeedParse ks = 1%nat
  /\ (calls KGet ks <= 1)%nat
  /\ (calls KGenerate ks <= 2)%nat
  /\ (calls KGetSpeakers ks <= 1)%nat
  /\ (calls KAudioQuery ks <= 1)%nat
  /\ (calls KSynthesis ks <= 1)%nat
  /\ (calls KImageSave ks <= 5)%nat
  /\ (calls KWriteVideofile ks <= 1)%nat.
Proof.
  intros ks. subst ks. split.
  - assert (Hle : (calls KFeedParse (kinds (trace (main env))) <= 1)%nat)
      by (destruct (main_calls_bound env KFeedParse) as [H|H]; exact H).
    destruct (main_trace_starts env) as [rest Ht]. rewrite Ht in Hle |- *.
    unfold calls in *. cbn [kinds map kind List.filter Kind_eqb length] in *.
    lia.
  - repeat split.
    + destruct (main_calls_bound env KGet) as [H|H]; exact H.
    + destruct (main_calls_bound env KGenerate) as [H|H]; exact H.
    + destruct (main_calls_bound env KGetSpeakers) as [H|H]; exact H.
    + destruct (main_calls_bound env KAudioQuery) as [H|H]; exact H.
    + destruct (main_calls_bound env KSynthesis) as [H|H]; exact H.
    + destruct (main_calls_bound env KImageSave) as [H|H]; exact H.
    + destruct (main_calls_bound env KWriteVideofile) as [H|H]; exact H.
Qed.

(** ** The locator of the PDF *)

Lemma starts_with_self (old post : str) : Str.starts_with old (old ++ post) = true.
Proof.
  induction old as [|c old IH]; [reflexivity|].
  cbn [app Str.starts_with]. rewrite N.eqb_refl, IH. reflexivity.
Qed.

Lemma replace_from_skip (old new w post : str) :
  Str.replace_from old new (length w) (w ++ post)
  = Str.replace_from old new 0 post.
Proof.
  induction w as [|c w IH]; [reflexivity|]. exact IH.
Qed.

Lemma replace_at (old new post : str) :
  old <> [] ->
  Str.replace old new (old ++ post) = new ++ Str.replace old new post.
Proof.
  intros Hne. destruct old as [|c old]; [contradiction|].
  unfold Str.replace.
  change ((c :: old) ++ post) with (c :: (old ++ post)).
  cbn [Str.replace_from].
  change (c :: (old ++ post)) with ((c :: old) ++ post).
  rewrite starts_with_self. cbn [length Nat.pred].
  rewrite replace_from_skip. reflexivity.
Qed.

Lemma replace_before (old new pre rest : str) :
  occurs_within old (length pre) (pre ++ rest) = false ->
  Str.replace old new (pre ++ rest) = pre ++ Str.replace old new rest.
Proof.
  unfold Str.replace. induction pre as [|c pre IH]; [reflexivity|].
  cbn [length app occurs_within]. intros H.
  apply orb_false_iff in H as [Hs Hrest].
  cbn [Str.replace_from]. cbn [app] in Hs. rewrite Hs.
  rewrite (IH Hrest). reflexivity.
Qed.

Lemma replace_absent (old new s : str) :
  occurs old s = false -> Str.replace old new s = s.
Proof.
  unfold occurs. intros H.
  assert (H' : occurs_within old (length s) (s ++ []) = false)
    by (rewrite app_nil_r; exact H).
  pose proof (replace_before old new s [] H') as E.
  rewrite !app_nil_r in E. exact E.
Qed.

(** X24. For an entry whose id is [<pre>abs<post>] with [abs] occurring
    nowhere else, the document is requested from [<pre>pdf<post>.pdf]; an id
    without [abs] only gets [.pdf] appended. (Every occurrence of [abs] is
    rewritten, not only a path segment.) *)
Theorem pdf_url_of_abs_page (entry : Entry) (pre post : str) :
  (entry_id entry = pre ++ py "abs" ++ post ->
   occurs_within (py "abs") (length pre) (entry_id entry) = false ->
   occurs (py "abs") post = false ->
   pdf_url_of entry = pre ++ py "pdf" ++ post ++ py ".pdf")
  /\ (occurs (py "abs") (entry_id entry) = false ->
      pdf_url_of entry = entry_id entry ++ py ".pdf").
Proof.
  unfold pdf_url_of. split.
  - intros Hid Hpre Hpost. rewrite Hid in Hpre |- *.
    rewrite (replace_before _ _ _ _ Hpre).
    rewrite replace_at by discriminate.
    rewrite (replace_absent _ _ _ Hpost).
    rewrite <- !app_assoc. reflexivity.
  - intros H. rewrite (replace_absent _ _ _ H). reflexivity.
Qed.

Lemma pdf_url_of_abs_page_witness :
  pdf_url_of {| entry_title := py "A/B: Test?";
                entry_id := py "http://arxiv.org/abs/2401.00001v1" |}
  = py "http://arxiv.org/" ++ py "pdf" ++ py "/2401.00001v1" ++ py ".pdf"
  /\ pdf_url_of {| entry_title := py "t"; entry_id := py "oai:2401.1" |}
     = py "oai:2401.1" ++ py ".pdf".
Proof.
  destruct (pdf_url_of_abs_page
              {| entry_title := py "A/B: Test?";
                 entry_id := py "http://arxiv.org/abs/2401.00001v1" |}
              (py "http://arxiv.org/") (py "/2401.00001v1")) as [H _].
  destruct (pdf_url_of_abs_page
              {| entry_title := py "t"; entry_id := py "oai:2401.1" |} [] [])
    as [_ H0].
  split; [apply H; reflexivity | apply H0; reflexivity].
Defined.
